(** * Command schema model and message lifecycle: a shallow embedding

    Two source files are embedded here:
    - [src/dis_interact/model.py]            (module [DisInteract])
    - [src/interactions/api/models/message.py] (module [Interactions])

    Python values are dynamically typed, calls may raise, and the message
    operations are coroutines that await the transport.  The embedding keeps
    all three: a small universe of values, a result type with the exception
    classes the code raises or catches, and a free monad of awaited calls with
    an interpreter that records the calls in the order they were made. *)

From Stdlib Require Import ZArith Ascii String List Bool Lia.
From stdpp Require Import base option list strings gmap.

Local Open Scope Z_scope.
#[local] Set Warnings "-register-all".

(** ** Python run-time notions shared by both files *)
Module Py.

(** [DefaultErrorEnum] lives in [.types.enums], which is not part of the
    sources at hand; only the two members the code names are listed. *)
Inductive DefaultErrorEnum : Type :=
| INCORRECT_COMMAND_DATA
| INCORRECT_FORMAT.

(** Exception classes that the two files raise, catch or provoke. *)
Inductive exn : Type :=
| ValueError
| TypeError
| AttributeError
| KeyError
| Forbidden
| InteractionException (code : DefaultErrorEnum) (message : string)
| LibraryException (code : Z) (message : option string)
| OtherError (tag : nat).

Inductive result (A : Type) : Type :=
| Ok (a : A)
| Raise (e : exn).
Arguments Ok {A} a.
Arguments Raise {A} e.

#[global] Instance result_ret : MRet result := fun A a => Ok a.
#[global] Instance result_bind : MBind result := fun A B f r =>
  match r with
  | Ok a => f a
  | Raise e => Raise e
  end.

Definition is_Ok {A} (r : result A) : bool :=
  match r with Ok _ => true | Raise _ => false end.

(** [[f(x) for x in xs]]: left to right, the first exception wins. *)
Fixpoint comprehension {A B} (f : A -> result B) (xs : list A) : result (list B) :=
  match xs with
  | [] => Ok []
  | x :: xs' => y ← f x; ys ← comprehension f xs'; Ok (y :: ys)
  end.

(** [a, b = xs]: exactly two items, or [ValueError]. *)
Definition unpack2 {A} (xs : list A) : result (A * A) :=
  match xs with
  | [a; b] => Ok (a, b)
  | _ => Raise ValueError
  end.

(** [x is not []]: the list display on the right builds a new object, and
    no existing object is identical to it. *)
Definition is_not_fresh_list {A} (x : A) : bool := true.

(** [a and b] on comparisons that may raise: [b] is evaluated only when
    [a] came out true. *)
Definition and_then (a b : result bool) : result bool :=
  match a with
  | Ok true => b
  | Ok false => Ok false
  | Raise e => Raise e
  end.

(** ASCII part of [str.lower()]. *)
Definition lower_ascii (c : ascii) : ascii :=
  let n := nat_of_ascii c in
  if (Nat.leb 65 n && Nat.leb n 90)%bool then ascii_of_nat (n + 32) else c.

Fixpoint lower_string (s : string) : string :=
  match s with
  | EmptyString => EmptyString
  | String c s' => String (lower_ascii c) (lower_string s')
  end.

(** *** Coroutines

    A coroutine is a tree: it returns, raises, awaits a call of the outside
    world and goes on with the answer (a value or an exception), or hands a
    second coroutine to the event loop as a task and goes on. *)
Section Coroutines.
Context {C R : Type}.

Inductive prog : Type :=
| Ret (v : R)
| Throw (e : exn)
| Await (c : C) (k : result R -> prog)
| CreateTask (task : prog) (k : prog).

Definition lift (r : result R) : prog :=
  match r with Ok v => Ret v | Raise e => Throw e end.

(** [await c] *)
Definition await (c : C) : prog := Await c lift.

(** [p] and then [f] on what [p] returned. *)
Fixpoint bind (p : prog) (f : R -> prog) : prog :=
  match p with
  | Ret v => f v
  | Throw e => Throw e
  | Await c k => Await c (fun r => bind (k r) f)
  | CreateTask t k => CreateTask t (bind k f)
  end.

(** [try: p except ...: handler]; [handler e = None] when no clause matches
    [e].  What a clause raises is not caught again. *)
Fixpoint try_except (p : prog) (handler : exn -> option prog) : prog :=
  match p with
  | Ret v => Ret v
  | Throw e => match handler e with Some h => h | None => Throw e end
  | Await c k => Await c (fun r => try_except (k r) handler)
  | CreateTask t k => CreateTask t (try_except k handler)
  end.

(** One run: what was returned or raised, the calls made, oldest first,
    and the tasks handed to the loop. *)
Record outcome : Type := Outcome {
  returned : result R;
  calls : list C;
  tasks : list prog
}.

(** The world answers a call knowing the calls made before it. *)
Fixpoint run (world : list C -> C -> result R) (past : list C) (p : prog) : outcome :=
  match p with
  | Ret v => Outcome (Ok v) past []
  | Throw e => Outcome (Raise e) past []
  | Await c k => run world (past ++ [c]) (k (world past c))
  | CreateTask t k =>
      let o := run world past k in
      Outcome (returned o) (calls o) (t :: tasks o)
  end.
End Coroutines.
Arguments prog : clear implicits.
Arguments outcome : clear implicits.

End Py.

(** ** [src/dis_interact/model.py] *)
Module DisInteract.
Import Py.

(** The objects that travel through the file.  Instances of the file's own
    classes are kept by the attributes their [__init__] assigns, in the
    order of assignment; objects of the third-party classes by what the code
    can observe of them: an embed and an allowed-mentions object by the
    dictionary their [to_dict()] returns, a file by its handle. *)
Inductive value : Type :=
| VNone
| VBool (b : bool)
| VInt (n : Z)
| VStr (s : string)
| VList (xs : list value)
| VTuple (xs : list value)
| VDict (kvs : list (string * value))
| VEmbed (to_dict : list (string * value))
| VMentions (to_dict : list (string * value))
| VFile (fd : nat)
| VFunc (fn : nat)
| VBaseCommand
    (name description default_permission id application_id version options : value)
| VBaseOption (name description required options choices : value)
| VBaseChoice (name val : value)
| VBasePermission (id _type state : value)
| VBaseGuildPermission (id guild_id permissions : value)
| VBaseMenu.

(** [bool(v)]; instances without [__bool__] or [__len__] are true. *)
Definition truthy (v : value) : bool :=
  match v with
  | VNone => false
  | VBool b => b
  | VInt n => negb (n =? 0)
  | VStr s => negb (String.eqb s "")
  | VList xs | VTuple xs => negb (Nat.eqb (length xs) 0)
  | VDict kvs => negb (Nat.eqb (length kvs) 0)
  | _ => true
  end.

(** [v is None]; [v == None] gives the same answer on this universe. *)
Definition is_None (v : value) : bool :=
  match v with VNone => true | _ => false end.

(** [a or b] *)
Definition py_or (a b : value) : value := if truthy a then a else b.

(** Integers and booleans compare as numbers. *)
Definition num (v : value) : option Z :=
  match v with
  | VInt n => Some n
  | VBool b => Some (if b then 1 else 0)
  | _ => None
  end.

(** [v == n] for an integer literal [n]. *)
Definition eq_int (v : value) (n : Z) : bool :=
  match num v with Some m => m =? n | None => false end.

Fixpoint kw_get (k : string) (kvs : list (string * value)) : option value :=
  match kvs with
  | [] => None
  | (k', v) :: rest => if String.eqb k k' then Some v else kw_get k rest
  end.

(** [isinstance(v, list)] *)
Definition isinstance_list (v : value) : bool :=
  match v with VList _ => true | _ => false end.

(** [isinstance(v, None)]: the second argument is not a class, so the call
    raises whatever [v] is. *)
Definition isinstance_None (v : value) : result bool := Raise TypeError.

(** What a comprehension over [v] visits. *)
Definition iterate (v : value) : result (list value) :=
  match v with
  | VList xs | VTuple xs => Ok xs
  | VDict kvs => Ok (map (fun kv => VStr (fst kv)) kvs)
  | VStr s => Ok (map (fun c => VStr (String c EmptyString)) (list_ascii_of_string s))
  | _ => Raise TypeError
  end.

(** [len(v)] *)
Definition len (v : value) : result Z :=
  match v with
  | VList xs | VTuple xs => Ok (Z.of_nat (length xs))
  | VDict kvs => Ok (Z.of_nat (length kvs))
  | VStr s => Ok (Z.of_nat (String.length s))
  | _ => Raise TypeError
  end.

(** [v.to_dict()] *)
Definition to_dict (v : value) : result value :=
  match v with
  | VEmbed d | VMentions d => Ok (VDict d)
  | _ => Raise AttributeError
  end.

(** [v.lower()] *)
Definition lower (v : value) : result value :=
  match v with
  | VStr s => Ok (VStr (lower_string s))
  | _ => Raise AttributeError
  end.

(** [v.append(x)], giving the list as it is afterwards. *)
Definition append (v x : value) : result value :=
  match v with
  | VList xs => Ok (VList (xs ++ [x]))
  | _ => Raise AttributeError
  end.

(** [d[k]] and [d.get(k)] on a dictionary with string keys. *)
Definition getitem (d : gmap string value) (k : string) : result value :=
  match d !! k with
  | Some v => Ok v
  | None => Raise KeyError
  end.

Definition get (d : gmap string value) (k : string) : value :=
  default VNone (d !! k).

(** A loop that threads what it has built so far and stops at the first
    exception. *)
Section ForEach.
Context {A S : Type} (body : S -> A -> result S).

Fixpoint for_each (s : S) (xs : list A) : result S :=
  match xs with
  | [] => Ok s
  | x :: xs' =>
      match body s x with
      | Ok s' => for_each s' xs'
      | Raise e => Raise e
      end
  end.
End ForEach.

(** *** Structural equality: the [__eq__] methods

    [py_eq a b] is [a == b], that is [type(a).__eq__(a, b)].  The methods of
    the file never answer [NotImplemented]; where a built-in left operand
    would, the reflected method of one of the file's classes is asked and
    says [False], since its [isinstance] test fails.  Lists compare their
    items by identity first, which is why [same_object] is needed: identity
    is a fact of the heap, not of the attributes.  A list answers [False]
    for another length before it looks at any item; a tuple has no such
    shortcut and compares the items both have first, so that a comparison
    that raises there is not lost. *)
Section Equality.
Variable same_object : value -> value -> bool.

Fixpoint py_eq (a b : value) {struct a} : result bool :=
  let item_eq x y := if same_object x y then Ok true else py_eq x y in
  let seq_eq :=
    fix seq_eq (xs ys : list value) {struct xs} : result bool :=
      match xs, ys with
      | x :: xs', y :: ys' => and_then (item_eq x y) (seq_eq xs' ys')
      | [], [] => Ok true
      | _, _ => Ok false
      end in
  match a with
  | VNone => Ok (is_None b)
  | VBool _ | VInt _ =>
      Ok (match num a, num b with Some m, Some n => m =? n | _, _ => false end)
  | VStr s => Ok (match b with VStr t => String.eqb s t | _ => false end)
  | VList xs =>
      match b with
      | VList ys => if Nat.eqb (length xs) (length ys) then seq_eq xs ys else Ok false
      | _ => Ok false
      end
  | VTuple xs =>
      match b with
      | VTuple ys => seq_eq xs ys
      | _ => Ok false
      end
  | VDict kvs =>
      match b with
      | VDict kvs' =>
          if Nat.eqb (length kvs) (length kvs') then
            (fix dict_eq (l : list (string * value)) : result bool :=
               match l with
               | [] => Ok true
               | (k, v) :: l' =>
                   match kw_get k kvs' with
                   | Some v' => and_then (item_eq v v') (dict_eq l')
                   | None => Ok false
                   end
               end) kvs
          else Ok false
      | _ => Ok false
      end
  (* third-party objects: compared by identity *)
  | VEmbed _ | VMentions _ | VFile _ | VFunc _ => Ok (same_object a b)
  (* BaseCommand.__eq__ *)
  | VBaseCommand name description default_permission _ _ _ options =>
      match b with
      | VBaseCommand name' description' default_permission' _ _ _ options' =>
          and_then (py_eq name name')
            (and_then (py_eq description description')
               (and_then (py_eq options options')
                  (py_eq default_permission default_permission')))
      | _ => Ok false
      end
  (* BaseOption.__eq__ and BaseChoice.__eq__: once [isinstance] holds,
     [self.__dict__] is read; both classes declare [__slots__] and
     derive from [object] alone, so their instances have no [__dict__]. *)
  | VBaseOption _ _ _ _ _ =>
      match b with
      | VBaseOption _ _ _ _ _ => Raise AttributeError
      | _ => Ok false
      end
  | VBaseChoice _ _ =>
      match b with
      | VBaseChoice _ _ => Raise AttributeError
      | _ => Ok false
      end
  (* BasePermission.__eq__ *)
  | VBasePermission id _type state =>
      match b with
      | VBasePermission id' _ state' =>
          and_then (py_eq id id')
            (and_then (py_eq _type id') (py_eq state state'))
      | _ => Ok false
      end
  (* BaseGuildPermission.__eq__ *)
  | VBaseGuildPermission id guild_id permissions =>
      match b with
      | VBaseGuildPermission id' guild_id' permissions' =>
          and_then (py_eq id id')
            (and_then (py_eq guild_id guild_id') (py_eq permissions permissions'))
      | _ => Ok false
      end
  (* BaseMenu.__eq__: [__init__] assigns nothing, so [self.id] is unset *)
  | VBaseMenu =>
      match b with
      | VBaseMenu => Raise AttributeError
      | _ => Ok false
      end
  end.
End Equality.

(** *** Constructors *)

Definition BaseChoice__init__ (name val : value) : result value :=
  Ok (VBaseChoice name val).

(** [BaseChoice] called with a dictionary as keywords: [name] and [value]
    are its only parameters, so a missing or a surplus keyword is a
    [TypeError] of the call itself. *)
Definition BaseChoice_call (choice : list (string * value)) : result value :=
  match kw_get "name" choice, kw_get "value" choice with
  | Some name, Some val =>
      if forallb (fun kv => String.eqb (fst kv) "name" || String.eqb (fst kv) "value") choice
      then BaseChoice__init__ name val
      else Raise TypeError
  | _, _ => Raise TypeError
  end.

(** The keywords of one call of [BaseOption]; [None] marks a keyword
    that the dictionary does not carry.  [kw_type] is [kwargs.get("type")]'s
    source, the sub-options are the dictionaries of the nested calls. *)
Inductive OptionDecl : Type :=
  mkOptionDecl (name description required : option value)
               (options : option (list OptionDecl))
               (choices : option (list (list (string * value))))
               (kw_type : option value).

Definition SchemaError_type : exn :=
  InteractionException INCORRECT_COMMAND_DATA "Type is a required kwarg for options.".
Definition SchemaError_options : exn :=
  InteractionException INCORRECT_COMMAND_DATA
    "Options are required for subcommands/subcommand groups.".

(** [BaseOption.__init__], statement by statement. *)
Fixpoint BaseOption__init__ (d : OptionDecl) : result value :=
  match d with
  | mkOptionDecl (Some name) (Some description) required options choices kw_type =>
      let required := default (VBool false) required in
      (* self.options, self.choices = [] *)
      match unpack2 (@nil value) with
      | Raise e => Raise e
      | Ok (self_options, self_choices) =>
          let _type := default VNone kw_type in
          if is_None _type then Raise SchemaError_type else
          match
            (if eq_int _type 1 || eq_int _type 2 then
               if is_not_fresh_list options then
                 match options with
                 | Some opts =>
                     for_each
                       (fun acc option =>
                          match BaseOption__init__ option with
                          | Ok o => append acc o
                          | Raise e => Raise e
                          end)
                       self_options opts
                 | None => Ok self_options
                 end
               else if eq_int _type 2 then Raise SchemaError_options
               else Ok self_options
             else Ok self_options)
          with
          | Raise e => Raise e
          | Ok self_options =>
              match
                (if negb (Nat.eqb (length (default [] choices)) 0) then
                   for_each
                     (fun acc choice =>
                        match BaseChoice_call choice with
                        | Ok c => append acc c
                        | Raise e => Raise e
                        end)
                     self_choices (default [] choices)
                 else Ok self_choices)
              with
              | Raise e => Raise e
              | Ok self_choices =>
                  Ok (VBaseOption name description required self_options self_choices)
              end
          end
      end
  | _ => Raise TypeError   (* [name] or [description] missing from the call *)
  end.

(** [BaseCommand.__init__]; the defaults of the signature are the caller's
    to fill in. *)
Definition BaseCommand__init__
    (name description : value) (options : list OptionDecl)
    (default_permission id application_id version : value) : result value :=
  let self_options := VList [] in
  self_options ←
    (if is_not_fresh_list options then
       for_each
         (fun acc option =>
            match BaseOption__init__ option with
            | Ok o => append acc o
            | Raise e => Raise e
            end)
         self_options options
     else Ok self_options);
  Ok (VBaseCommand name description default_permission id application_id version
        self_options).

Definition BasePermission__init__ (id _type state : value) : result value :=
  Ok (VBasePermission id _type state).

(** [BaseGuildPermission.__init__]: each entry of [permissions] is passed
    to [BaseGuildPermission] again, as keywords.  A declaration is the
    keywords of one call: the three that the signature names, [None] where
    the dictionary does not carry one, and [others], the keywords it carries
    besides.  The signature takes no further keywords, so a call with any
    is a [TypeError], as is one that lacks a parameter. *)
Inductive GuildPermissionDecl : Type :=
  mkGuildPermissionDecl (id guild_id : option value)
                        (permissions : option (list GuildPermissionDecl))
                        (others : list (string * value)).

Fixpoint BaseGuildPermission__init__ (d : GuildPermissionDecl) : result value :=
  match d with
  | mkGuildPermissionDecl (Some id) (Some guild_id) (Some permissions) [] =>
      (* a list never equals [{}], so the loop is always entered *)
      match
        for_each
          (fun acc permission =>
             match BaseGuildPermission__init__ permission with
             | Ok p => append acc p
             | Raise e => Raise e
             end)
          (VList []) permissions
      with
      | Ok self_permissions => Ok (VBaseGuildPermission id guild_id self_permissions)
      | Raise e => Raise e
      end
  | _ => Raise TypeError
  end.

(** [Command]: the class has no base but [object], and eighteen slots. *)
Definition Command__slots__ : list string :=
  ["_type"; "base"; "group"; "name"; "description"; "base_description";
   "group_description"; "guild_ids"; "options"; "connector"; "permissions";
   "default_permission"; "has_description"; "has_options"; "has_subcommands";
   "has_permissions"; "has_group"; "cog"].

(** [self.attr = v] on an instance whose class declares [slots]. *)
Definition setattr (slots : list string) (self : gmap string value)
    (attr : string) (v : value) : result (gmap string value) :=
  if existsb (String.eqb attr) slots then Ok (<[attr := v]> self)
  else Raise AttributeError.

(** [super().__init__] with arguments, where the next class is [object] and the
    subclass overrides [__init__]: any argument beyond [self] is refused. *)
Definition object__init__ (args : list value) : result unit :=
  match args with
  | [] => Ok ()
  | _ => Raise TypeError
  end.

(** [x.lower() if not isinstance(x, None) else None] *)
Definition lower_unless_None (x : value) : result value :=
  b ← isinstance_None x;
  if negb b then lower x else Ok VNone.

Definition Command__init__ (name : value) (command : gmap string value)
    (_type sub base group : value) : result (gmap string value) :=
  let set := setattr Command__slots__ in
  func ← getitem command "func";
  _ ← object__init__ [func];
  self ← set ∅ "_type" _type;
  v ← lower_unless_None base; self ← set self "base" v;
  v ← lower_unless_None sub; self ← set self "sub" v;
  v ← lower_unless_None group; self ← set self "group" v;
  let self_group := v in
  v ← lower name; self ← set self "name" v;
  description ← getitem command "description";
  self ← set self "description" description;
  base_description ← getitem command "base_desc";
  self ← set self "base_description" base_description;
  group_description ← getitem command "sub_group_desc";
  self ← set self "group_description" group_description;
  v ← getitem command "guild_ids"; self ← set self "guild_ids" (py_or v (VList []));
  v ← getitem command "api_options";
  let options := py_or v (VList []) in
  self ← set self "options" options;
  v ← getitem command "connector"; self ← set self "connector" (py_or v (VDict []));
  v ← getitem command "api_permissions";
  let permissions := py_or v (VDict []) in
  self ← set self "permissions" permissions;
  v ← getitem command "default_permission"; self ← set self "default_permission" v;
  self ← set self "has_description"
           (VBool (truthy description || truthy base_description
                   || truthy group_description));
  self ← set self "has_options" (VBool (truthy options));
  v ← getitem command "has_subcommands";
  self ← set self "has_subcommands" (VBool (truthy v));
  self ← set self "has_permissions" (VBool (truthy permissions));
  self ← set self "has_group" (VBool (truthy self_group));
  set self "cog" VNone.

(** *** [Message]: editing and deleting through the interaction token *)

(** What the methods read of [self]: the message id, the private
    interaction token and [self._state.allowed_mentions]. *)
Record Message : Type := {
  id : value;
  __interaction_token : value;
  _state_allowed_mentions : value
}.

(** The calls that leave the method.  [super().delete] is the method of the
    base class in [.override], [_http.delete] the token-scoped request. *)
Inductive call : Type :=
| super_delete (delay : value)
| http_delete (token message_id : value)
| sleep (delay : value)
| file_close (fd : nat).

Definition coroutine : Type := prog call value.

Definition is_Forbidden (e : exn) : bool :=
  match e with Forbidden => true | _ => false end.

(** The inner coroutine [wrap] of [delete]. *)
Definition wrap (self : Message) (delay : value) : coroutine :=
  bind
    (try_except
       (bind (await (sleep delay))
          (fun _ => await (http_delete (__interaction_token self) (id self))))
       (* with suppress(Forbidden) *)
       (fun e => if is_Forbidden e then Some (Ret VNone) else None))
    (fun _ => Ret VNone).

(** [Message.delete] *)
Definition delete (self : Message) (delay : value) : coroutine :=
  try_except
    (bind (await (super_delete delay)) (fun _ => Ret VNone))
    (fun e =>
       if is_Forbidden e then
         Some (if negb (truthy delay)
               then await (http_delete (__interaction_token self) (id self))
               else CreateTask (wrap self delay) (Ret VNone))
       else None).

Section SlashEdit.
(** [AllowedMentions.merge] belongs to the third-party library. *)
Variable merge : list (string * value) -> value -> result value.

(** [recv.merge(arg)] *)
Definition method_merge (recv arg : value) : result value :=
  match recv with
  | VMentions d => merge d arg
  | _ => Raise AttributeError
  end.

Definition FormatError (message : string) : exn :=
  InteractionException INCORRECT_FORMAT message.

(** The four-way branch that fills [_response["allowed_mentions"]]. *)
Definition resolve_allowed_mentions (state_mentions allowed_mentions : value)
  : result value :=
  if is_None allowed_mentions then
    if is_None state_mentions then
      m ← method_merge state_mentions allowed_mentions; to_dict m
    else to_dict allowed_mentions
  else
    if is_None state_mentions then to_dict state_mentions
    else Ok (VDict []).

(** The [else] branch of [_slash_edit] up to the point where
    [_response] is complete: the dictionary, and [files] as rebound. *)
Definition _slash_edit_response (self : Message)
    (content components embed embeds file files allowed_mentions : value)
  : result (gmap string value * value) :=
  let content := if is_None content then VStr "None" else VNone in
  let _response : gmap string value :=
    <["components" := if is_None components then VList [] else components]> ∅ in
  items ← iterate embeds;
  dicts ← comprehension to_dict items;
  let _response := <["embeds" := VList dicts]> _response in
  e ← (if is_None embed then Ok (VList [])
       else if is_None embeds then d ← to_dict embed; Ok (VList [d])
       else getitem _response "embeds");
  let _response := <["embeds" := e]> _response in
  let files := if truthy file then VList [file] else files in
  if negb (isinstance_list embeds) then
    Raise (FormatError "Provide a list of embeds.")
  else
    n ← len embeds;
    if 10 <? n then Raise (FormatError "Do not provide more than 10 embeds.")
    else if negb (is_None files) && negb (is_None file) then
      Raise (FormatError
               "You can't use both file and files kwargs at the same time.")
    else
      am ← resolve_allowed_mentions (_state_allowed_mentions self) allowed_mentions;
      Ok (<["allowed_mentions" := am]> _response, files).

(** [f.close()] *)
Definition close (f : value) : coroutine :=
  match f with
  | VFile fd => await (file_close fd)
  | _ => Throw AttributeError
  end.

Fixpoint close_all (fs : list value) : coroutine :=
  match fs with
  | [] => Ret VNone
  | f :: fs' => bind (close f) (fun _ => close_all fs')
  end.

(** The six subscriptions of the [try] block, in order. *)
Definition required_fields (fields : gmap string value)
  : result (value * value * value * value * value * value) :=
  content ← getitem fields "content";
  components ← getitem fields "components";
  embed ← getitem fields "embed";
  embeds ← getitem fields "embeds";
  file ← getitem fields "file";
  files ← getitem fields "files";
  Ok (content, components, embed, embeds, file, files).

(** [Message._slash_edit] *)
Definition _slash_edit (self : Message) (fields : gmap string value) : coroutine :=
  match required_fields fields with
  | Raise KeyError => Ret VNone            (* except KeyError: pass *)
  | Raise e => Throw e
  | Ok (content, components, embed, embeds, file, files) =>
      let allowed_mentions := get fields "allowed_mentions" in
      let delete_after := get fields "delete_after" in
      match
        _slash_edit_response self content components embed embeds file files
          allowed_mentions
      with
      | Raise e => Throw e
      | Ok (_response, files) =>
          bind (if truthy delete_after then delete self delete_after else Ret VNone)
            (fun _ =>
               bind (if truthy files then
                       match iterate files with
                       | Ok fs => close_all fs
                       | Raise e => Throw e
                       end
                     else Ret VNone)
                 (fun _ => Ret VNone))
      end
  end.
End SlashEdit.

End DisInteract.

(** ** [src/interactions/api/models/message.py]: [Message.edit] *)
Module Interactions.
Import Py.

Inductive json : Type :=
| JNull
| JBool (b : bool)
| JInt (n : Z)
| JStr (s : string)
| JList (xs : list json)
| JDict (kvs : list (string * json)).

(** The serialisable models, by what [edit] reads of them: [x._json], and
    for a file [x._json_payload(i)]. *)
Record Embed : Type := { Embed_json : json }.
Record Attachment : Type := { Attachment_json : json }.
Record AllowedMentions : Type := { AllowedMentions_json : json }.
Record MessageReference : Type := { MessageReference_json : json }.
Record Component : Type := { Component_json : json }.
Record File : Type := { _json_payload : Z -> json }.

(** A keyword argument is left at the sentinel [MISSING] or given. *)
Inductive arg (A : Type) : Type :=
| MISSING
| Given (a : A).
Arguments MISSING {A}.
Arguments Given {A} a.

(** [Optional[Union[T, List[T]]]] *)
Inductive one_or_many (A : Type) : Type :=
| NoneGiven
| One (a : A)
| Many (xs : list A).
Arguments NoneGiven {A}.
Arguments One {A} a.
Arguments Many {A} xs.

(** [Optional[Union[AllowedMentions, dict]]] *)
Inductive mentions_arg : Type :=
| MentionsNone
| MentionsObject (m : AllowedMentions)
| MentionsDict (d : json).

(** The attributes of [self] that [edit] reads. *)
Record Message : Type := {
  self_client : option nat;
  self_id : Z;
  self_channel_id : Z;
  self_content : option string;
  self_attachments : option (list Attachment);
  self_embeds : option (list Embed);
  self_flags : option Z;
  self_components : option (list Component)
}.

Record EditArgs : Type := {
  content : arg (option string);
  tts : arg (option bool);
  files : arg (one_or_many File);
  embeds : arg (one_or_many Embed);
  suppress_embeds : arg (option bool);
  allowed_mentions : arg mentions_arg;
  message_reference : arg (option MessageReference);
  attachments : arg (option (list Attachment));
  components : arg (one_or_many Component)
}.

(** The dictionary [payload], key by key. *)
Record Payload : Type := {
  payload_content : option string;
  payload_tts : option bool;
  payload_attachments : list json;
  payload_embeds : list json;
  payload_allowed_mentions : json;
  payload_message_reference : json;
  payload_components : list json;
  payload_flags : option Z
}.

(** The one request of [edit]: [self._client.edit_message(...)]. *)
Inductive call : Type :=
  edit_message (channel_id message_id : Z) (payload : Payload)
               (files : arg (one_or_many File)).

(** What [edit] takes from modules that are not among the sources: the
    truth value of the sentinel, the flag constant and its complement, the
    component builder and [update] of the serialiser mixin.
    [not_SUPPRESS_EMBEDS] is the value of [~MessageFlags.SUPPRESS_EMBEDS]:
    the flag class computes it, as the integer complement of the constant
    or as the union of the other flags that the class declares, depending
    on the class and the version of [enum]. *)
Record External : Type := {
  MISSING_truthy : bool;
  SUPPRESS_EMBEDS : Z;
  not_SUPPRESS_EMBEDS : Z;
  _build_components : one_or_many Component -> result (list json);
  update : Message -> json -> Message
}.

Definition is_MISSING {A} (a : arg A) : bool :=
  match a with MISSING => true | Given _ => false end.

(** [bool(x)] for an optional item or list; an object is true. *)
Definition truthy_items {A} (x : one_or_many A) : bool :=
  match x with
  | NoneGiven => false
  | One _ => true
  | Many xs => negb (Nat.eqb (length xs) 0)
  end.

Definition truthy_arg {A} (ext : External) (t : A -> bool) (a : arg A) : bool :=
  match a with
  | MISSING => MISSING_truthy ext
  | Given x => t x
  end.

Definition truthy_option {A} (t : A -> bool) (o : option A) : bool :=
  match o with Some x => t x | None => false end.

Definition nonempty {A} (xs : list A) : bool := negb (Nat.eqb (length xs) 0).

(** [[file._json_payload(id) for id, file in enumerate(files)]] *)
Fixpoint enumerate_payloads (i : Z) (fs : list File) : list json :=
  match fs with
  | [] => []
  | f :: fs' => _json_payload f i :: enumerate_payloads (i + 1) fs'
  end.

Definition optional_list {A} (o : option (list A)) : one_or_many A :=
  match o with Some xs => Many xs | None => NoneGiven end.

Section Edit.
Variable ext : External.

(** [_flags] after the two [suppress_embeds] branches. *)
Definition edit_flags (self : Message) (a : EditArgs) : result (option Z) :=
  let _flags := self_flags self in
  match suppress_embeds a with
  | Given s =>
      match _flags with
      | None => Raise TypeError
      | Some f =>
          if truthy_option (fun b : bool => b) s
          then Ok (Some (Z.lor f (SUPPRESS_EMBEDS ext)))
          else Ok (Some (Z.land f (not_SUPPRESS_EMBEDS ext)))
      end
  | MISSING => Ok _flags
  end.

Definition edit_attachments (self : Message) (a : EditArgs) : result (list json) :=
  match attachments a with
  | MISSING =>
      match self_attachments self with
      | Some xs => Ok (map Attachment_json xs)
      | None => Raise TypeError
      end
  | Given o =>
      if negb (truthy_option nonempty o) then Ok []
      else Ok (map Attachment_json (default [] o))
  end.

(** [_files], and [files] as it is passed on to the request. *)
Definition edit_files (a : EditArgs) : list json * arg (one_or_many File) :=
  let files := files a in
  if negb (truthy_arg ext truthy_items files) || is_MISSING files then ([], files)
  else
    match files with
    | Given (Many fs) => (enumerate_payloads 0 fs, files)
    | Given (One f) => ([_json_payload f 0], Given (Many [f]))
    | _ => ([], files)
    end.

Definition edit_embeds (self : Message) (a : EditArgs) : list json :=
  let embeds :=
    match embeds a with
    | MISSING => optional_list (self_embeds self)
    | Given e => e
    end in
  if truthy_items embeds then
    match embeds with
    | Many es => map Embed_json es
    | One e => [Embed_json e]
    | NoneGiven => []
    end
  else [].

Definition edit_allowed_mentions (a : EditArgs) : json :=
  match allowed_mentions a with
  | MISSING => JDict []
  | Given (MentionsObject m) => AllowedMentions_json m
  | Given (MentionsDict d) => d
  | Given MentionsNone => JNull
  end.

Definition edit_message_reference (a : EditArgs) : result json :=
  match message_reference a with
  | MISSING => Ok (JDict [])
  | Given (Some r) => Ok (MessageReference_json r)
  | Given None => Raise AttributeError
  end.

Definition edit_components (self : Message) (a : EditArgs) : result (list json) :=
  let components := components a in
  if negb (truthy_arg ext truthy_items components) then Ok []
  else if is_MISSING components then
    _build_components ext (optional_list (self_components self))
  else
    match components with
    | Given c => _build_components ext c
    | MISSING => Ok []
    end.

(** Everything between the two guards and the request: the payload and
    the files to upload. *)
Definition build_payload (self : Message) (a : EditArgs)
  : result (Payload * arg (one_or_many File)) :=
  _flags ← edit_flags self a;
  let _content :=
    match content a with MISSING => self_content self | Given c => c end in
  let _tts := match tts a with MISSING => Some false | Given t => t end in
  _attachments ← edit_attachments self a;
  let '(_files, files) := edit_files a in
  let _files := _files ++ _attachments in
  let _embeds := edit_embeds self a in
  let _allowed_mentions := edit_allowed_mentions a in
  _message_reference ← edit_message_reference a;
  _components ← edit_components self a;
  Ok ({| payload_content := _content;
         payload_tts := _tts;
         payload_attachments := _files;
         payload_embeds := _embeds;
         payload_allowed_mentions := _allowed_mentions;
         payload_message_reference := _message_reference;
         payload_components := _components;
         payload_flags := _flags |}, files).

Definition hidden_message : exn :=
  LibraryException 12 (Some "You cannot edit a hidden message!").

(** [Message.edit]: what it returns or raises, and the requests made. *)
Definition edit (world : call -> result json) (self : Message) (a : EditArgs)
  : result Message * list call :=
  match self_client self with
  | None => (Raise (LibraryException 13 None), [])
  | Some _ =>
      if bool_decide (self_flags self = Some 64) then (Raise hidden_message, [])
      else
        match build_payload self a with
        | Raise e => (Raise e, [])
        | Ok (payload, files) =>
            let c := edit_message (self_channel_id self) (self_id self) payload files in
            match world c with
            | Ok _dct => (Ok (update ext self _dct), [c])
            | Raise e => (Raise e, [c])
            end
        end
  end.
End Edit.

End Interactions.

(** ** [src/interactions/api/models/message.py]: the field list of [Embed] *)
Module Embeds.

Record EmbedField : Type := {
  field_name : string;
  field_inline : option bool;
  field_value : string
}.

Record EmbedFooter : Type := {
  footer_text : string;
  footer_icon_url : option string;
  footer_proxy_icon_url : option string
}.

Record EmbedImageStruct : Type := {
  image_url : string;
  image_proxy_url : option string;
  image_height : option Z;
  image_width : option Z
}.

Record EmbedProvider : Type := {
  provider_name : option string;
  provider_url : option string
}.

Record EmbedAuthor : Type := {
  author_name : string;
  author_url : option string;
  author_icon_url : option string;
  author_proxy_icon_url : option string
}.

(** The attributes of [Embed], all optional. *)
Record Embed : Type := {
  title : option string;
  type : option string;
  description : option string;
  url : option string;
  timestamp : option string;
  color : option Z;
  footer : option EmbedFooter;
  image : option EmbedImageStruct;
  thumbnail : option EmbedImageStruct;
  video : option EmbedImageStruct;
  provider : option EmbedProvider;
  author : option EmbedAuthor;
  fields : option (list EmbedField)
}.

(** A method returns [self], raises [IndexError] with a message, or lets
    the [OverflowError] of a list method through; either way [self] is left
    as the method changed it. *)
Inductive outcome : Type :=
| Returned (self : Embed)
| IndexError (self : Embed) (message : string)
| OverflowError (self : Embed).

(** [self.fields = fs] *)
Definition set_fields (self : Embed) (fs : list EmbedField) : Embed :=
  {| title := title self; type := type self; description := description self;
     url := url self; timestamp := timestamp self; color := color self;
     footer := footer self; image := image self; thumbnail := thumbnail self;
     video := video self; provider := provider self; author := author self;
     fields := Some fs |}.

(** [self.fields] after [if self.fields is None: self.fields = []]. *)
Definition fields_or_empty (self : Embed) : list EmbedField :=
  default [] (fields self).

(** Where [l[index]] and [l.pop(index)] look in a list of [n] items: a
    negative index counts from the end, anything else is out of range. *)
Definition position (n : nat) (index : Z) : option nat :=
  if (0 <=? index) && (index <? Z.of_nat n) then Some (Z.to_nat index)
  else if (index <? 0) && (0 <=? index + Z.of_nat n)
       then Some (Z.to_nat (index + Z.of_nat n))
       else None.

(** [sys.maxsize] on a 64-bit build.  [list.insert] and [list.pop] take
    their index as a machine integer, and an integer that does not fit
    raises [OverflowError] before the list is looked at.  Assigning to
    [l[index]] answers [IndexError] for such an integer instead, like for
    any other index out of range, which is what [position] says. *)
Definition maxsize : Z := 2 ^ 63 - 1.

Definition fits_ssize_t (index : Z) : bool :=
  (- maxsize - 1 <=? index) && (index <=? maxsize).

(** Where [l.insert(index, x)] puts [x]: a negative index counts from the
    end, and the result is clamped to the list. *)
Definition insert_position (n : nat) (index : Z) : nat :=
  if index <? 0 then Z.to_nat (Z.max 0 (index + Z.of_nat n))
  else Z.to_nat (Z.min index (Z.of_nat n)).

(** The list after [l.insert(index, x)] for an index that fits. *)
Definition list_insert_at {A} (l : list A) (index : Z) (x : A) : list A :=
  let k := insert_position (length l) index in
  take k l ++ x :: drop k l.

Definition add_field (self : Embed) (name value : string) (inline : option bool) : Embed :=
  set_fields self
    (fields_or_empty self
     ++ [{| field_name := name; field_inline := inline; field_value := value |}]).

Definition clear_fields (self : Embed) : Embed := set_fields self [].

Definition insert_field_at (self : Embed) (index : Z) (name value : string)
    (inline : option bool) : outcome :=
  let fs := fields_or_empty self in
  if fits_ssize_t index then
    Returned
      (set_fields self
         (list_insert_at fs index
            {| field_name := name; field_inline := inline; field_value := value |}))
  else OverflowError (set_fields self fs).

Definition set_field_at (self : Embed) (index : Z) (name value : string)
    (inline : option bool) : outcome :=
  let fs := fields_or_empty self in
  match position (length fs) index with
  | Some k =>
      Returned
        (set_fields self
           (<[k := {| field_name := name; field_inline := inline; field_value := value |}]> fs))
  | None => IndexError (set_fields self fs) "No fields at this index"
  end.

(** [self.fields.pop(index)] inside [try]: only [IndexError] is caught and
    raised anew. *)
Definition remove_field (self : Embed) (index : Z) : outcome :=
  let fs := fields_or_empty self in
  if fits_ssize_t index then
    match position (length fs) index with
    | Some k => Returned (set_fields self (delete k fs))
    | None => IndexError (set_fields self fs) "Field not Found at index"
    end
  else OverflowError (set_fields self fs).

End Embeds.

(** ** [src/interactions/api/models/message.py]: reactions *)
Module Reactions.
Import Py Interactions.

(** [emoji] is a string or an [Emoji], kept by the two attributes the
    methods read; an id is kept by the text it is formatted to. *)
Inductive emoji_arg : Type :=
| EmojiStr (s : string)
| EmojiObject (name : option string) (id : option string).

(** [user] is an id or an object with an [id] attribute. *)
Inductive user_arg : Type :=
| UserId (n : Z)
| UserObject (id : option Z).

(** One entry of the list that the transport answers, by its keys; the
    [User] built from it is kept as the entry itself. *)
Record UserDict : Type := {
  user_id : Z;
  username : string
}.

Inductive call : Type :=
| get_reactions_of_emoji (channel_id message_id : Z) (emoji : option string)
    (limit : Z) (after : option Z)
| create_reaction_call (channel_id message_id : Z) (emoji : option string)
| remove_user_reaction (channel_id message_id user_id : Z) (emoji : option string).

(** [s.replace(':', '')] *)
Fixpoint remove_colons (s : string) : string :=
  match s with
  | EmptyString => EmptyString
  | String c s' =>
      if Ascii.eqb c ":" then remove_colons s' else String c (remove_colons s')
  end.

(** The expression that every reaction method binds to [_emoji]. *)
Definition format_emoji (emoji : emoji_arg) : result (option string) :=
  match emoji with
  | EmojiStr s => Ok (Some s)
  | EmojiObject name (Some i) =>
      match name with
      | Some n => Ok (Some (":" +:+ remove_colons n +:+ ":" +:+ i))
      | None => Raise AttributeError
      end
  | EmojiObject name None => Ok name
  end.

Definition no_client : exn := LibraryException 13 None.

(** [Message.create_reaction] *)
Definition create_reaction (world : list call -> call -> result unit)
    (self : Message) (emoji : emoji_arg) : result unit * list call :=
  match self_client self with
  | None => (Raise no_client, [])
  | Some _ =>
      match format_emoji emoji with
      | Raise e => (Raise e, [])
      | Ok _emoji =>
          let c := create_reaction_call (self_channel_id self) (self_id self) _emoji in
          (world [] c, [c])
      end
  end.

(** [Message.remove_reaction_from] *)
Definition remove_reaction_from (world : list call -> call -> result unit)
    (self : Message) (emoji : emoji_arg) (user : user_arg) : result unit * list call :=
  match format_emoji emoji with
  | Raise e => (Raise e, [])
  | Ok _emoji =>
      match self_client self with
      | None => (Raise no_client, [])
      | Some _ =>
          let _user_id :=
            match user with UserId n => Some n | UserObject i => i end in
          match _user_id with
          | None => (Raise TypeError, [])
          | Some n =>
              let c := remove_user_reaction (self_channel_id self) (self_id self) n _emoji in
              (world [] c, [c])
          end
      end
  end.

(** The [while] loop of [get_users_from_reaction] and what follows it.
    Inside the loop [res] has a hundred entries, so [res[-1]] exists.  The
    loop has no bound of its own; [fuel] counts the turns that are allowed
    and [None] says they were used up. *)
Fixpoint more_pages (fuel : nat) (world : list call -> call -> result (list UserDict))
    (request : option Z -> call) (past : list call)
    (res _all_users : list UserDict)
  : option (result (list UserDict) * list call) :=
  if Nat.eqb (length res) 100 then
    match fuel with
    | O => None
    | S fuel' =>
        let _after := user_id <$> last res in
        let _all_users := _all_users ++ res in
        let c := request _after in
        match world past c with
        | Ok res' => more_pages fuel' world request (past ++ [c]) res' _all_users
        | Raise e => Some (Raise e, past ++ [c])
        end
    end
  else Some (Ok (_all_users ++ res), past).

(** [Message.get_users_from_reaction] *)
Definition get_users_from_reaction (fuel : nat)
    (world : list call -> call -> result (list UserDict))
    (self : Message) (emoji : emoji_arg)
  : option (result (list UserDict) * list call) :=
  match self_client self with
  | None => Some (Raise no_client, [])
  | Some _ =>
      match format_emoji emoji with
      | Raise e => Some (Raise e, [])
      | Ok _emoji =>
          let request :=
            get_reactions_of_emoji (self_channel_id self) (self_id self) _emoji 100 in
          match world [] (request None) with
          | Raise e => Some (Raise e, [request None])
          | Ok res => more_pages fuel world request [request None] res []
          end
      end
  end.

End Reactions.

(** ** [src/interactions/api/models/message.py]: [Message.url] and
    [Message.get_from_url] *)
Module Urls.
Import Py Interactions.

(** [s.startswith(prefix)] *)
Fixpoint starts_with (prefix s : string) : bool :=
  match prefix, s with
  | EmptyString, _ => true
  | String a prefix', String b s' => Ascii.eqb a b && starts_with prefix' s'
  | String _ _, EmptyString => false
  end.

(** [sub in s] *)
Fixpoint contains (sub s : string) : bool :=
  starts_with sub s ||
  match s with
  | EmptyString => false
  | String _ s' => contains sub s'
  end.

(** [s.split(sep)] for a separator that is not empty, read from left to
    right: [piece] is the part collected since the last separator, and
    [skip] counts the characters of a separator just found that are still
    to be passed over. *)
Fixpoint split_from (sep : string) (skip : nat) (piece s : string) : list string :=
  match s with
  | EmptyString => [piece]
  | String c s' =>
      match skip with
      | S k => split_from sep k piece s'
      | O =>
          if starts_with sep s
          then piece :: split_from sep (String.length sep - 1) EmptyString s'
          else split_from sep 0 (piece +:+ String c EmptyString) s'
      end
  end.

Definition split (sep s : string) : list string := split_from sep 0 EmptyString s.

(** The property [url].  The ids are kept by the text they are formatted
    to; a message outside a guild has no guild id. *)
Definition url (guild_id : option string) (channel_id id : string) : string :=
  let guild := default "@me" guild_id in
  "https://discord.com/channels/" +:+ guild +:+ "/" +:+ channel_id +:+ "/" +:+ id.

Inductive call : Type :=
  get_message (channel_id message_id : string).

Definition invalid_url : exn :=
  LibraryException 12 (Some "You provided an invalid URL!").

(** [Message.get_from_url], up to the message data that the transport
    answers.  The subscript [[1]] is within the list whenever the test
    before it has passed (see [contains_split] below). *)
Definition get_from_url (world : call -> result json) (url : string)
  : result json * list call :=
  if negb (contains "channels/" url) then (Raise invalid_url, [])
  else
    match split "/" (nth 1 (split "channels/" url) EmptyString) with
    | [_; _channel_id; _message_id] =>
        let c := get_message _channel_id _message_id in
        (world c, [c])
    | _ => (Raise ValueError, [])
    end.

End Urls.

(** ** [src/interactions/api/models/message.py]: [Message.reply] *)
Module Replies.
Import Py Interactions.

(** A sticker, by the text its id is formatted to. *)
Record Sticker : Type := { Sticker_id : string }.

Record ReplyArgs : Type := {
  reply_content : arg (option string);
  reply_tts : arg (option bool);
  reply_embeds : arg (one_or_many Embed);
  reply_files : arg (one_or_many File);
  reply_attachments : arg (option (list Attachment));
  reply_allowed_mentions : arg mentions_arg;
  reply_stickers : arg (option (list Sticker));
  reply_components : arg (one_or_many Component)
}.

(** The dictionary [payload] of [reply], key by key. *)
Record ReplyPayload : Type := {
  sent_content : option string;
  sent_tts : option bool;
  sent_attachments : list json;
  sent_embeds : list json;
  sent_message_reference : json;
  sent_allowed_mentions : json;
  sent_components : list json;
  sent_sticker_ids : list string
}.

Inductive call : Type :=
  create_message (channel_id : Z) (payload : ReplyPayload)
                 (files : arg (one_or_many File)).

(** What the transport answers: the entry "author", a dictionary when it is
    there, and the other entries. *)
Record MessageData : Type := {
  data_author : option (gmap string json);
  data_rest : gmap string json
}.

Section Reply.
Variable ext : External.

(** [MessageReference(message_id=n)._json]: the class is built and
    serialised by the mixins, which are not among the sources. *)
Variable reference_to : Z -> json.

Definition reply_embeds_json (a : ReplyArgs) : list json :=
  let embeds := reply_embeds a in
  if negb (truthy_arg ext truthy_items embeds) || is_MISSING embeds then []
  else
    match embeds with
    | Given (Many es) => map Embed_json es
    | Given (One e) => [Embed_json e]
    | _ => []
    end.

Definition reply_allowed_mentions_json (a : ReplyArgs) : json :=
  match reply_allowed_mentions a with
  | MISSING => JDict []
  | Given (MentionsObject m) => AllowedMentions_json m
  | Given (MentionsDict d) => d
  | Given MentionsNone => JNull
  end.

Definition reply_attachments_json (a : ReplyArgs) : result (list json) :=
  match reply_attachments a with
  | MISSING => Ok []
  | Given (Some xs) => Ok (map Attachment_json xs)
  | Given None => Raise TypeError
  end.

Definition reply_components_json (a : ReplyArgs) : result (list json) :=
  let components := reply_components a in
  if negb (truthy_arg ext truthy_items components) || is_MISSING components then Ok []
  else
    match components with
    | Given c => _build_components ext c
    | MISSING => Ok []
    end.

Definition reply_files_json (a : ReplyArgs) : list json * arg (one_or_many File) :=
  let files := reply_files a in
  if negb (truthy_arg ext truthy_items files) || is_MISSING files then ([], files)
  else
    match files with
    | Given (Many fs) => (enumerate_payloads 0 fs, files)
    | Given (One f) => ([_json_payload f 0], Given (Many [f]))
    | _ => ([], files)
    end.

Definition reply_sticker_ids (a : ReplyArgs) : result (list string) :=
  match reply_stickers a with
  | MISSING => Ok []
  | Given (Some ss) => Ok (map Sticker_id ss)
  | Given None => Raise TypeError
  end.

Definition reply_payload (self : Message) (a : ReplyArgs)
  : result (ReplyPayload * arg (one_or_many File)) :=
  let _content :=
    match reply_content a with MISSING => Some EmptyString | Given c => c end in
  let _tts := match reply_tts a with MISSING => Some false | Given t => t end in
  let _embeds := reply_embeds_json a in
  let _allowed_mentions := reply_allowed_mentions_json a in
  let _message_reference := reference_to (self_id self) in
  _attachments ← reply_attachments_json a;
  _components ← reply_components_json a;
  let '(_files, files) := reply_files_json a in
  let _files := _files ++ _attachments in
  _sticker_ids ← reply_sticker_ids a;
  Ok ({| sent_content := _content;
         sent_tts := _tts;
         sent_attachments := _files;
         sent_embeds := _embeds;
         sent_message_reference := _message_reference;
         sent_allowed_mentions := _allowed_mentions;
         sent_components := _components;
         sent_sticker_ids := _sticker_ids |}, files).

(** The dictionary that [author] starts as. *)
Definition author_defaults : gmap string json :=
  {[ "id" := JNull; "username" := JNull; "discriminator" := JNull ]}.

(** [Message.reply], up to the keywords from which the new message is
    built. *)
Definition reply (world : call -> result MessageData) (self : Message) (a : ReplyArgs)
  : result MessageData * list call :=
  match self_client self with
  | None => (Raise (LibraryException 13 None), [])
  | Some _ =>
      match reply_payload self a with
      | Raise e => (Raise e, [])
      | Ok (payload, files) =>
          let c := create_message (self_channel_id self) payload files in
          match world c with
          | Raise e => (Raise e, [c])
          | Ok res =>
              match data_author res with
              | None => (Raise KeyError, [c])
              | Some given =>
                  (* author.update(res["author"]) *)
                  let author := given ∪ author_defaults in
                  (Ok {| data_author := Some author; data_rest := data_rest res |}, [c])
              end
          end
      end
  end.
End Reply.

End Replies.

(** * Properties of the command schema classes *)
Module SchemaSpec.
Import Py DisInteract.

Lemma unpack2_nil (A : Type) : unpack2 (@nil A) = Raise ValueError.
Proof. reflexivity. Qed.

(** No declaration gets past the second statement of [BaseOption.__init__]. *)
Lemma BaseOption_init_outcomes (d : OptionDecl) :
  BaseOption__init__ d = Raise TypeError \/ BaseOption__init__ d = Raise ValueError.
Proof.
  destruct d as [[name|] [description|] required options choices kw_type];
    cbn; auto.
Qed.

(** The scenario of the specification: an INTEGER option named "count". *)
Definition count_integer : OptionDecl :=
  mkOptionDecl (Some (VStr "count")) (Some (VStr "how many")) (Some (VBool true))
    None None (Some (VInt 4)).

(** A subcommand group without children, and an option without a type. *)
Definition empty_group : OptionDecl :=
  mkOptionDecl (Some (VStr "count")) (Some (VStr "how many")) None
    (Some []) None (Some (VInt 2)).

Definition untyped : OptionDecl :=
  mkOptionDecl (Some (VStr "count")) (Some (VStr "how many")) None None None None.

(** C1.  Construction of an option never succeeds, and never fails with the
    schema error: the well-formed INTEGER option of the specification, the
    subcommand group without children and the option without a type all
    stop at [self.options, self.choices = []] with [ValueError]. *)
Theorem BaseOption_init_stops_at_unpacking :
  (forall d, is_Ok (BaseOption__init__ d) = false) /\
  BaseOption__init__ count_integer = Raise ValueError /\
  BaseOption__init__ empty_group = Raise ValueError /\
  BaseOption__init__ untyped = Raise ValueError.
Proof.
  split; [| repeat split; reflexivity].
  intros d. destruct (BaseOption_init_outcomes d) as [-> | ->]; reflexivity.
Qed.

(** In particular the schema error is never what the caller sees. *)
Lemma BaseOption_init_never_schema_error (d : OptionDecl) code message :
  BaseOption__init__ d <> Raise (InteractionException code message).
Proof. destruct (BaseOption_init_outcomes d) as [-> | ->]; discriminate. Qed.

(** A command without options is the only one [BaseCommand] can build. *)
Lemma BaseCommand_init_no_options name description dp i app ver :
  BaseCommand__init__ name description [] dp i app ver
  = Ok (VBaseCommand name description dp i app ver (VList [])).
Proof. reflexivity. Qed.

Lemma BaseCommand_init_with_options name description o os dp i app ver :
  is_Ok (BaseCommand__init__ name description (o :: os) dp i app ver) = false.
Proof.
  unfold BaseCommand__init__. cbn.
  destruct (BaseOption_init_outcomes o) as [-> | ->]; reflexivity.
Qed.

(** The declaration bundle of a command "Ping" with every key present. *)
Definition ping_declaration : gmap string value :=
  list_to_map
    [("func", VFunc 0); ("description", VStr "Replies"); ("base_desc", VNone);
     ("sub_group_desc", VNone); ("guild_ids", VNone); ("api_options", VNone);
     ("connector", VNone); ("api_permissions", VNone);
     ("default_permission", VBool true); ("has_subcommands", VBool false)].

Lemma Command_init_outcomes name command _type sub base group :
  Command__init__ name command _type sub base group = Raise KeyError \/
  Command__init__ name command _type sub base group = Raise TypeError.
Proof.
  unfold Command__init__, getitem.
  destruct (command !! "func") as [func|]; cbn; auto.
Qed.

(** C8.  [Command.__init__] stores no field at all: its first statement
    passes [command["func"]] on to [object.__init__], which takes no
    argument, so every construction raises, and the one of "Ping" with a
    base "Base" raises [TypeError] instead of storing "ping" and "base". *)
Theorem Command_init_never_normalizes :
  (forall name command _type sub base group,
      is_Ok (Command__init__ name command _type sub base group) = false) /\
  Command__init__ (VStr "Ping") ping_declaration (VInt 1) VNone (VStr "Base") VNone
  = Raise TypeError.
Proof.
  split.
  - intros. destruct (Command_init_outcomes name command _type sub base group)
      as [-> | ->]; reflexivity.
  - vm_compute. reflexivity.
Qed.

(** The statements after the first would not do better: the test
    [isinstance(x, None)] raises for every [x], and "sub" is not a slot. *)
Lemma lower_unless_None_raises x : lower_unless_None x = Raise TypeError.
Proof. reflexivity. Qed.

Lemma Command_sub_is_no_slot self v :
  setattr Command__slots__ self "sub" v = Raise AttributeError.
Proof. reflexivity. Qed.

(** *** Equality *)
Section EqualityFacts.
Variable same_object : value -> value -> bool.
Notation "a == b" := (py_eq same_object a b) (at level 70, no associativity).

Lemma BasePermission_eq_unfold i t s i' t' s' :
  (VBasePermission i t s == VBasePermission i' t' s')
  = and_then (i == i') (and_then (t == i') (s == s')).
Proof. reflexivity. Qed.

Lemma eq_other_kind_BasePermission i t s other :
  (forall i' t' s', other <> VBasePermission i' t' s') ->
  (VBasePermission i t s == other) = Ok false.
Proof. intros H. destruct other; try reflexivity. exfalso; eapply H; eauto. Qed.

Lemma eq_other_kind_BaseCommand n d dp i app ver os other :
  (forall n' d' dp' i' app' ver' os', other <> VBaseCommand n' d' dp' i' app' ver' os') ->
  (VBaseCommand n d dp i app ver os == other) = Ok false.
Proof. intros H. destruct other; try reflexivity. exfalso; eapply H; eauto. Qed.

Lemma eq_other_kind_BaseOption n d r os cs other :
  (forall n' d' r' os' cs', other <> VBaseOption n' d' r' os' cs') ->
  (VBaseOption n d r os cs == other) = Ok false.
Proof. intros H. destruct other; try reflexivity. exfalso; eapply H; eauto. Qed.

Lemma eq_same_kind_BaseOption n d r os cs n' d' r' os' cs' :
  (VBaseOption n d r os cs == VBaseOption n' d' r' os' cs') = Raise AttributeError.
Proof. reflexivity. Qed.

Lemma eq_same_kind_BaseChoice n v n' v' :
  (VBaseChoice n v == VBaseChoice n' v') = Raise AttributeError.
Proof. reflexivity. Qed.

(** Commands as [BaseCommand.__init__] builds them compare by name,
    description and default permission; the identity fields are left
    out. *)
Lemma BaseCommand_eq_no_options n d dp i app ver n' d' dp' i' app' ver' :
  (VBaseCommand n d dp i app ver (VList []) == VBaseCommand n' d' dp' i' app' ver' (VList []))
  = and_then (n == n') (and_then (d == d') (dp == dp')).
Proof. reflexivity. Qed.

End EqualityFacts.

(** Guild permission sets compare their nested sets in order (here no two
    items are one object). *)
Definition guild_set (first second : Z) : GuildPermissionDecl :=
  let entry n := mkGuildPermissionDecl (Some (VInt n)) (Some (VInt 9)) (Some []) [] in
  mkGuildPermissionDecl (Some (VInt 1)) (Some (VInt 9)) (Some [entry first; entry second]) [].

Example guild_permissions_compare_in_order :
  match BaseGuildPermission__init__ (guild_set 2 3),
        BaseGuildPermission__init__ (guild_set 3 2) with
  | Ok g, Ok h =>
      py_eq (fun _ _ => false) g g = Ok true /\
      py_eq (fun _ _ => false) g h = Ok false /\
      py_eq (fun _ _ => false) h g = Ok false
  | _, _ => False
  end.
Proof. cbn. repeat split; reflexivity. Qed.

(** Lists compare item by item, in order (here no two items are one
    object). *)
Example list_eq_is_ordered :
  py_eq (fun _ _ => false) (VList [VInt 1; VInt 2]) (VList [VInt 2; VInt 1]) = Ok false /\
  py_eq (fun _ _ => false) (VList [VInt 1; VInt 2]) (VList [VInt 1; VInt 2]) = Ok true.
Proof. split; reflexivity. Qed.

(** With an integer id, an integer kind and a boolean state, the method
    computes this test: the kind of the left operand against the id of the
    right one. *)
Lemma BasePermission_eq_typed same_object (i t i' t' : Z) (s s' : bool) :
  py_eq same_object (VBasePermission (VInt i) (VInt t) (VBool s))
                    (VBasePermission (VInt i') (VInt t') (VBool s'))
  = Ok ((i =? i') && (t =? i') && Bool.eqb s s').
Proof.
  cbn. destruct (i =? i'), (t =? i'), s, s'; reflexivity.
Qed.

(** C4.  Equality of the value entities is neither reflexive nor symmetric:
    a role override with id 5 is not equal to itself, two overrides of one
    id are equal from the left and unequal from the right, and comparing a
    choice with itself raises instead of answering. *)
Theorem equality_not_reflexive_nor_symmetric (same_object : value -> value -> bool) :
  let p := VBasePermission (VInt 5) (VInt 1) (VBool true) in
  let q := VBasePermission (VInt 1) (VInt 1) (VBool true) in
  let r := VBasePermission (VInt 1) (VInt 2) (VBool true) in
  let c := VBaseChoice (VStr "red") (VInt 1) in
  BasePermission__init__ (VInt 5) (VInt 1) (VBool true) = Ok p /\
  BaseChoice_call [("name", VStr "red"); ("value", VInt 1)] = Ok c /\
  py_eq same_object p p = Ok false /\
  py_eq same_object q r = Ok true /\
  py_eq same_object r q = Ok false /\
  py_eq same_object c c = Raise AttributeError.
Proof. repeat split; reflexivity. Qed.

(** C9.  [BasePermission.__eq__] does not compare kind with kind: it tests
    [self._type == other.id].  Two overrides with the same id 42, kind 2
    and state are unequal, and two overrides of id 2 whose kinds are 2 and
    1 are equal. *)
Theorem BasePermission_eq_compares_type_with_id (same_object : value -> value -> bool) :
  (forall i t s i' t' s',
      py_eq same_object (VBasePermission i t s) (VBasePermission i' t' s')
      = and_then (py_eq same_object i i')
          (and_then (py_eq same_object t i') (py_eq same_object s s'))) /\
  py_eq same_object (VBasePermission (VInt 42) (VInt 2) (VBool false))
                    (VBasePermission (VInt 42) (VInt 2) (VBool false)) = Ok false /\
  py_eq same_object (VBasePermission (VInt 2) (VInt 2) (VBool true))
                    (VBasePermission (VInt 2) (VInt 1) (VBool true)) = Ok true.
Proof. repeat split; reflexivity. Qed.

End SchemaSpec.

(** * Properties of [Message.delete] and [Message._slash_edit] *)
Module LifecycleSpec.
Import Py DisInteract.

Implicit Types (world : list call -> call -> result value) (self : Message).

(** A world that answers [Forbidden] to the channel-scoped delete lets
    [delete] reach its handler. *)
Lemma run_delete_Forbidden world self delay :
  world [] (super_delete delay) = Raise Forbidden ->
  run world [] (delete self delay)
  = run world [super_delete delay]
      (if negb (truthy delay)
       then await (http_delete (__interaction_token self) (id self))
       else CreateTask (wrap self delay) (Ret VNone)).
Proof. intros H. unfold delete. cbn. rewrite H. reflexivity. Qed.

(** Any other answer of the channel-scoped delete is the answer of
    [delete]: [None] on success, the exception otherwise. *)
Lemma run_delete_not_Forbidden world self delay :
  world [] (super_delete delay) <> Raise Forbidden ->
  run world [] (delete self delay)
  = Outcome (match world [] (super_delete delay) with
             | Ok _ => Ok VNone
             | Raise e => Raise e
             end) [super_delete delay] [].
Proof.
  intros H. unfold delete. cbn.
  destruct (world [] (super_delete delay)) as [v|e]; cbn; [reflexivity|].
  destruct e; cbn; try reflexivity. congruence.
Qed.

(** C2.  Without a delay, a [Forbidden] answer to the channel-scoped delete
    is followed by exactly one token-scoped delete, with the stored token
    and the message id, and [delete] returns or raises what that call
    did. *)
Theorem delete_no_delay_falls_back_once world self delay :
  truthy delay = false ->
  world [] (super_delete delay) = Raise Forbidden ->
  run world [] (delete self delay)
  = Outcome
      (world [super_delete delay] (http_delete (__interaction_token self) (id self)))
      [super_delete delay; http_delete (__interaction_token self) (id self)]
      [].
Proof.
  intros Hdelay Hforbidden.
  rewrite (run_delete_Forbidden _ _ _ Hforbidden), Hdelay. cbn.
  destruct (world [super_delete delay] _); reflexivity.
Qed.

Definition forbidden_channel : list call -> call -> result value :=
  fun _ c => match c with super_delete _ => Raise Forbidden | _ => Ok (VInt 204) end.

Definition ephemeral : Message :=
  {| id := VInt 7; __interaction_token := VStr "token"; _state_allowed_mentions := VNone |}.

Lemma delete_no_delay_falls_back_once_witness :
  run forbidden_channel [] (delete ephemeral VNone)
  = Outcome (Ok (VInt 204)) [super_delete VNone; http_delete (VStr "token") (VInt 7)] [].
Proof.
  apply (delete_no_delay_falls_back_once forbidden_channel ephemeral VNone);
    reflexivity.
Defined.

(** What the task does, whatever the world answers. *)
Lemma run_wrap world past self delay :
  run world past (wrap self delay)
  = match world past (sleep delay) with
    | Raise e =>
        Outcome (if is_Forbidden e then Ok VNone else Raise e) (past ++ [sleep delay]) []
    | Ok _ =>
        let c := http_delete (__interaction_token self) (id self) in
        Outcome (match world (past ++ [sleep delay]) c with
                 | Ok _ => Ok VNone
                 | Raise e => if is_Forbidden e then Ok VNone else Raise e
                 end)
                ((past ++ [sleep delay]) ++ [c]) []
    end.
Proof.
  unfold wrap. cbn.
  destruct (world past (sleep delay)) as [v|e]; cbn.
  - destruct (world _ _) as [v'|e']; cbn; [reflexivity|].
    destruct (is_Forbidden e'); reflexivity.
  - destruct (is_Forbidden e); reflexivity.
Qed.

(** C3, as the code has it.  With a delay that is true (not zero), a
    [Forbidden] answer to the channel-scoped delete makes [delete] hand
    [wrap] to the loop and return [None] without a further call.  The task
    sleeps for the delay, then makes the token-scoped delete, and a
    [Forbidden] answer there ends the task without an exception. *)
Theorem delete_delay_defers_fallback world self delay :
  truthy delay = true ->
  world [] (super_delete delay) = Raise Forbidden ->
  run world [] (delete self delay)
  = Outcome (Ok VNone) [super_delete delay] [wrap self delay] /\
  (forall world' past,
      returned (run world' past (wrap self delay)) <> Raise Forbidden) /\
  (forall world' past,
      is_Ok (world' past (sleep delay)) = true ->
      calls (run world' past (wrap self delay))
      = past ++ [sleep delay; http_delete (__interaction_token self) (id self)]) /\
  (forall world' past,
      is_Ok (world' past (sleep delay)) = true ->
      world' (past ++ [sleep delay])
        (http_delete (__interaction_token self) (id self)) = Raise Forbidden ->
      run world' past (wrap self delay)
      = Outcome (Ok VNone)
          (past ++ [sleep delay; http_delete (__interaction_token self) (id self)]) []).
Proof.
  intros Hdelay Hforbidden. repeat split.
  - rewrite (run_delete_Forbidden _ _ _ Hforbidden), Hdelay. reflexivity.
  - intros world' past. rewrite run_wrap.
    destruct (world' past (sleep delay)) as [v|e]; cbn.
    + destruct (world' _ _) as [v'|e']; cbn; [congruence|].
      destruct e'; cbn; congruence.
    + destruct e; cbn; congruence.
  - intros world' past Hsleep. rewrite run_wrap.
    destruct (world' past (sleep delay)); [|discriminate].
    cbn. by rewrite <- app_assoc.
  - intros world' past Hsleep Hdel. rewrite run_wrap.
    destruct (world' past (sleep delay)); [|discriminate].
    cbn. rewrite Hdel. cbn. by rewrite <- app_assoc.
Qed.

(** The transport refuses every delete; sleeping succeeds. *)
Definition forbidden_everywhere : list call -> call -> result value :=
  fun _ c => match c with sleep _ => Ok VNone | _ => Raise Forbidden end.

Lemma delete_delay_defers_fallback_witness :
  run forbidden_everywhere [] (delete ephemeral (VInt 5))
  = Outcome (Ok VNone) [super_delete (VInt 5)] [wrap ephemeral (VInt 5)] /\
  run forbidden_everywhere [] (wrap ephemeral (VInt 5))
  = Outcome (Ok VNone) [sleep (VInt 5); http_delete (VStr "token") (VInt 7)] [].
Proof.
  destruct (delete_delay_defers_fallback forbidden_everywhere ephemeral (VInt 5)
              eq_refl eq_refl) as (Hrun & _ & _ & Htask).
  split; [exact Hrun |].
  apply (Htask forbidden_everywhere []); reflexivity.
Defined.

(** C3, as stated, fails for the delay 0: it is a delay, yet [not delay]
    holds, no task is created, the token-scoped delete is made at once and
    its [Forbidden] reaches the caller. *)
Lemma delete_zero_delay_not_deferred :
  VInt 0 <> VNone /\
  forbidden_everywhere [] (super_delete (VInt 0)) = Raise Forbidden /\
  run forbidden_everywhere [] (delete ephemeral (VInt 0))
  = Outcome (Raise Forbidden)
      [super_delete (VInt 0); http_delete (VStr "token") (VInt 7)] [].
Proof. split; [discriminate | split; reflexivity]. Qed.

(** *** [_slash_edit] *)

(** [AllowedMentions.merge] as the third-party library documents it is not
    needed for what follows; any function will do for the examples. *)
Definition keep_left : list (string * value) -> value -> result value :=
  fun d _ => Ok (VMentions d).

Definition users_only : value := VMentions [("parse", VList [VStr "users"])].
Definition nobody : value := VMentions [("parse", VList [])].

Definition with_default : Message :=
  {| id := VInt 7; __interaction_token := VStr "token";
     _state_allowed_mentions := nobody |}.

(** The branch is entered with the receiver of each method call being
    [None], so three of its four arms raise and the fourth stores [{}]. *)
Lemma resolve_allowed_mentions_cases merge state_mentions allowed_mentions :
  resolve_allowed_mentions merge state_mentions allowed_mentions
  = if is_None allowed_mentions || is_None state_mentions
    then Raise AttributeError
    else Ok (VDict []).
Proof.
  unfold resolve_allowed_mentions.
  destruct allowed_mentions, state_mentions; reflexivity.
Qed.

(** C6.  The entry [allowed_mentions] of [_response] is never the caller's
    value and never a merge with the default.  A supplied value is replaced
    by the empty dictionary when the client has a default (and raises
    [AttributeError] when it has none); an omitted value raises
    [AttributeError].  Shown for every input of the branch, and on an edit
    of content "hi" with [users_only] supplied, then omitted. *)
Theorem slash_edit_allowed_mentions_inverted
    (merge : list (string * value) -> value -> result value) :
  (forall state_mentions allowed_mentions,
      resolve_allowed_mentions merge state_mentions allowed_mentions
      = if is_None allowed_mentions || is_None state_mentions
        then Raise AttributeError
        else Ok (VDict [])) /\
  match _slash_edit_response merge with_default
          (VStr "hi") VNone VNone (VList []) VNone VNone users_only with
  | Ok (_response, _) => _response !! "allowed_mentions" = Some (VDict [])
  | Raise _ => False
  end /\
  to_dict users_only = Ok (VDict [("parse", VList [VStr "users"])]) /\
  _slash_edit_response merge with_default
    (VStr "hi") VNone VNone (VList []) VNone VNone VNone = Raise AttributeError.
Proof.
  split; [intros; apply resolve_allowed_mentions_cases |].
  repeat split; vm_compute; reflexivity.
Qed.

Lemma comprehension_to_dict_Ok (es : list value) :
  Forall (fun e => is_Ok (to_dict e) = true) es ->
  exists ds, comprehension to_dict es = Ok ds.
Proof.
  induction 1 as [| e es He _ [ds IH]]; [by exists [] |].
  destruct (to_dict e) as [d|] eqn:Hd; [| discriminate].
  exists (d :: ds). cbn. rewrite Hd. cbn. rewrite IH. reflexivity.
Qed.

(** With a list of embeds, and [file] and [files] both different from
    [None], the response is never completed. *)
Lemma slash_edit_response_conflict merge self content components embed es file files mentions :
  Forall (fun e => is_Ok (to_dict e) = true) es ->
  is_None file = false ->
  is_None files = false ->
  exists message,
    _slash_edit_response merge self content components embed (VList es) file files mentions
    = Raise (FormatError message).
Proof.
  intros Hes Hfile Hfiles.
  destruct (comprehension_to_dict_Ok es Hes) as [ds Hds].
  unfold _slash_edit_response. cbn. rewrite Hds. cbn.
  assert (Hboth : negb (is_None (if truthy file then VList [file] else files))
                  && negb (is_None file) = true).
  { rewrite Hfile. destruct (truthy file); cbn; [reflexivity | by rewrite Hfiles]. }
  destruct (is_None embed); cbn.
  - destruct (10 <? _); [by eexists |]. rewrite Hboth. by eexists.
  - unfold getitem. rewrite lookup_insert_eq. cbn.
    destruct (10 <? _); [by eexists |]. rewrite Hboth. by eexists.
Qed.

(** C7, as the code has it.  When the six keys that [_slash_edit] subscribes
    are all present, [embeds] is a list of embeds, and neither [file] nor
    [files] is [None], the call raises the format error and makes no call
    to the outside, whatever the world would have answered. *)
Theorem slash_edit_file_and_files_conflict merge world self
    (fields : gmap string value) content components embed es file files :
  fields !! "content" = Some content ->
  fields !! "components" = Some components ->
  fields !! "embed" = Some embed ->
  fields !! "embeds" = Some (VList es) ->
  fields !! "file" = Some file ->
  fields !! "files" = Some files ->
  Forall (fun e => is_Ok (to_dict e) = true) es ->
  is_None file = false ->
  is_None files = false ->
  exists message,
    run world [] (_slash_edit merge self fields)
    = Outcome (Raise (FormatError message)) [] [].
Proof.
  intros Hcontent Hcomponents Hembed Hembeds Hfile Hfiles Hes Hf Hfs.
  destruct (slash_edit_response_conflict merge self content components embed es
              file files (get fields "allowed_mentions") Hes Hf Hfs) as [message Hr].
  exists message.
  unfold _slash_edit, required_fields, getitem.
  rewrite Hcontent, Hcomponents, Hembed, Hembeds, Hfile, Hfiles.
  cbn -[_slash_edit_response]. rewrite Hr. reflexivity.
Qed.

Definition both_files : gmap string value :=
  list_to_map
    [("content", VStr "hi"); ("components", VNone); ("embed", VNone);
     ("embeds", VList []); ("file", VFile 1); ("files", VList [VFile 2])].

Lemma slash_edit_file_and_files_conflict_witness :
  exists message,
    run forbidden_everywhere [] (_slash_edit keep_left with_default both_files)
    = Outcome (Raise (FormatError message)) [] [].
Proof.
  apply (slash_edit_file_and_files_conflict keep_left forbidden_everywhere with_default
           both_files (VStr "hi") VNone VNone [] (VFile 1) (VList [VFile 2]));
    first [ by vm_compute | by constructor ].
Defined.

(** C7, as stated, fails when a subscribed key is absent: with [file] and
    [files] both supplied but no "content", the [KeyError] is passed over,
    nothing is raised and [None] is returned. *)
Lemma slash_edit_missing_key_no_error :
  let fields : gmap string value :=
    list_to_map [("file", VFile 1); ("files", VList [VFile 2])] in
  fields !! "file" = Some (VFile 1) /\
  fields !! "files" = Some (VList [VFile 2]) /\
  run forbidden_everywhere [] (_slash_edit keep_left with_default fields)
  = Outcome (Ok VNone) [] [].
Proof. repeat split; vm_compute; reflexivity. Qed.

End LifecycleSpec.

(** * Properties of [Message.edit] of the interactions client *)
Module EditSpec.
Import Py Interactions.

(** The embeds of a payload depend on the [embeds] argument and on the
    stored embeds only. *)
Lemma build_payload_embeds ext self a p fs :
  build_payload ext self a = Ok (p, fs) ->
  payload_embeds p = edit_embeds self a.
Proof.
  unfold build_payload.
  destruct (edit_flags ext self a); cbn; [| discriminate].
  destruct (edit_attachments self a); cbn; [| discriminate].
  destruct (edit_files ext a).
  destruct (edit_message_reference a); cbn; [| discriminate].
  destruct (edit_components ext self a); cbn; [| discriminate].
  intros [= <- _]. reflexivity.
Qed.

Lemma edit_embeds_cases self a :
  edit_embeds self a
  = match embeds a with
    | MISSING => map Embed_json (default [] (self_embeds self))
    | Given NoneGiven => []
    | Given (One e) => [Embed_json e]
    | Given (Many es) => map Embed_json es
    end.
Proof.
  unfold edit_embeds.
  destruct (embeds a) as [| [| e | [| e es]]]; try reflexivity.
  destruct (self_embeds self) as [[| e es] |]; reflexivity.
Qed.

(** Every request of [edit] carries the payload that [build_payload] made,
    for the channel and the id of the message. *)
Lemma edit_request ext world self a c :
  In c (snd (edit ext world self a)) ->
  exists p fs,
    c = edit_message (self_channel_id self) (self_id self) p fs /\
    build_payload ext self a = Ok (p, fs).
Proof.
  unfold edit.
  destruct (self_client self); [| intros []].
  destruct (bool_decide _); [intros [] |].
  destruct (build_payload ext self a) as [[p fs] |]; [| intros []].
  destruct (world _); cbn; (intros [<- | []]); eauto.
Qed.

(** When both guards are passed and the payload is built, it is sent, once. *)
Lemma edit_sends_built_payload ext world self a p fs :
  is_Some (self_client self) ->
  self_flags self <> Some 64 ->
  build_payload ext self a = Ok (p, fs) ->
  snd (edit ext world self a)
  = [edit_message (self_channel_id self) (self_id self) p fs].
Proof.
  intros [client Hclient] Hflags Hbuild. unfold edit.
  rewrite Hclient, Hbuild, bool_decide_eq_false_2 by exact Hflags.
  destruct (world _); reflexivity.
Qed.

(** The payload is built unless one of four statements raises: the flag
    arithmetic on stored flags [None], the comprehension over stored
    attachments [None], [._json] of a reference [None], or the component
    builder. *)
Lemma build_payload_Ok ext self a :
  (suppress_embeds a = MISSING \/ is_Some (self_flags self)) ->
  (attachments a = MISSING -> is_Some (self_attachments self)) ->
  message_reference a <> Given None ->
  is_Ok (edit_components ext self a) = true ->
  exists p fs, build_payload ext self a = Ok (p, fs).
Proof.
  intros Hflags Hattachments Hreference Hcomponents. unfold build_payload.
  assert (exists f, edit_flags ext self a = Ok f) as [f ->].
  { unfold edit_flags. destruct (suppress_embeds a) as [| s]; [by eexists |].
    destruct Hflags as [? | [f ->]]; [discriminate |].
    destruct (truthy_option _ s); by eexists. }
  assert (exists ats, edit_attachments self a = Ok ats) as [ats ->].
  { unfold edit_attachments. destruct (attachments a) as [| o].
    - destruct (Hattachments eq_refl) as [xs ->]. by eexists.
    - destruct (negb _); by eexists. }
  cbn. destruct (edit_files ext a) as [js up].
  assert (exists r, edit_message_reference a = Ok r) as [r ->].
  { unfold edit_message_reference.
    destruct (message_reference a) as [| [r |]]; [by eexists | by eexists | done]. }
  destruct (edit_components ext self a) as [cs |]; [| discriminate].
  cbn. by eexists _, _.
Qed.

(** And a request means that none of them raised, behind both guards. *)
Lemma edit_request_only_if ext world self a c :
  In c (snd (edit ext world self a)) ->
  is_Some (self_client self) /\
  self_flags self <> Some 64 /\
  (suppress_embeds a = MISSING \/ is_Some (self_flags self)) /\
  (attachments a = MISSING -> is_Some (self_attachments self)) /\
  message_reference a <> Given None /\
  is_Ok (edit_components ext self a) = true.
Proof.
  unfold edit. destruct (self_client self) as [client |]; [| intros []].
  destruct (bool_decide_reflect (self_flags self = Some 64)) as [| Hflags]; [intros [] |].
  destruct (build_payload ext self a) as [[p fs] |] eqn:Hbuild; [| intros []].
  intros _. split; [by eexists |]. split; [exact Hflags |].
  revert Hbuild. unfold build_payload, edit_flags, edit_attachments, edit_message_reference.
  destruct (suppress_embeds a) as [| s].
  - destruct (attachments a) as [| o].
    + destruct (self_attachments self) as [xs |]; cbn; [| discriminate].
      destruct (edit_files ext a).
      destruct (message_reference a) as [| [r |]]; cbn; try discriminate;
        (destruct (edit_components ext self a); cbn; [| discriminate]);
        intros _; repeat split; eauto; discriminate.
    + destruct (negb _); cbn;
        destruct (edit_files ext a);
        (destruct (message_reference a) as [| [r |]]; cbn; try discriminate);
        (destruct (edit_components ext self a); cbn; [| discriminate]);
        intros _; repeat split; eauto; discriminate.
  - destruct (self_flags self) as [f |]; [| discriminate].
    destruct (truthy_option _ s); cbn;
      (destruct (attachments a) as [| o];
       [ destruct (self_attachments self) as [xs |]; cbn; [| discriminate]
       | destruct (negb _); cbn ]);
      destruct (edit_files ext a);
      (destruct (message_reference a) as [| [r |]]; cbn; try discriminate);
      (destruct (edit_components ext self a); cbn; [| discriminate]);
      intros _; repeat split; eauto; discriminate.
Qed.

(** C5, as the code has it.  On a message that has a client and is not
    hidden, and when no other part of the payload raises (stored flags are
    there if [suppress_embeds] is given, stored attachments if
    [attachments] is left out, the reference is not [None], the components
    are built), [edit] sends exactly one request, for the channel and the
    id of the message.  The embeds of its payload are the stored embeds of
    the message, serialised in order, when the argument [embeds] was left
    out (none when nothing is stored), and the empty list when it was [[]]:
    the last case below, with no embed to map over. *)
Theorem edit_embeds_preserved_or_cleared ext world self a :
  is_Some (self_client self) ->
  self_flags self <> Some 64 ->
  (suppress_embeds a = MISSING \/ is_Some (self_flags self)) ->
  (attachments a = MISSING -> is_Some (self_attachments self)) ->
  message_reference a <> Given None ->
  is_Ok (edit_components ext self a) = true ->
  exists p fs,
    snd (edit ext world self a)
    = [edit_message (self_channel_id self) (self_id self) p fs] /\
    payload_embeds p
    = match embeds a with
      | MISSING => map Embed_json (default [] (self_embeds self))
      | Given NoneGiven => []
      | Given (One e) => [Embed_json e]
      | Given (Many es) => map Embed_json es
      end.
Proof.
  intros Hclient Hhidden Hflags Hattachments Hreference Hcomponents.
  destruct (build_payload_Ok ext self a Hflags Hattachments Hreference Hcomponents)
    as (p & fs & Hbuild).
  exists p, fs. split.
  - by apply edit_sends_built_payload.
  - rewrite (build_payload_embeds _ _ _ _ _ Hbuild). apply edit_embeds_cases.
Qed.

(** A client library as released: the sentinel is an ordinary object, the
    flag is bit 2, its complement the other eight of the flags on bits 0 to
    8, components serialise to their [_json]. *)
Definition released : External :=
  {| MISSING_truthy := true;
     SUPPRESS_EMBEDS := 4;
     not_SUPPRESS_EMBEDS := 507;
     _build_components := fun cs =>
       match cs with
       | NoneGiven => Ok []
       | One c => Ok [Component_json c]
       | Many l => Ok (map Component_json l)
       end;
     update := fun self _ => self |}.

Definition accepting : call -> result json := fun _ => Ok (JDict []).

Definition titled (t : string) : Embed := {| Embed_json := JDict [("title", JStr t)] |}.

Definition sent (client : option nat) (flags : Z) : Message :=
  {| self_client := client; self_id := 20; self_channel_id := 10;
     self_content := Some "hello"; self_attachments := Some [];
     self_embeds := Some [titled "a"; titled "b"];
     self_flags := Some flags; self_components := None |}.

Definition nothing_given : EditArgs :=
  {| content := MISSING; tts := MISSING; files := MISSING; embeds := MISSING;
     suppress_embeds := MISSING; allowed_mentions := MISSING;
     message_reference := MISSING; attachments := MISSING; components := MISSING |}.

Definition embeds_cleared : EditArgs :=
  {| content := MISSING; tts := MISSING; files := MISSING; embeds := Given (Many []);
     suppress_embeds := MISSING; allowed_mentions := MISSING;
     message_reference := MISSING; attachments := MISSING; components := MISSING |}.

(** The payload expected for [sent] when only [embeds] may be given. *)
Definition payload_with (es : list json) : Payload :=
  {| payload_content := Some "hello"; payload_tts := Some false;
     payload_attachments := [];
     payload_embeds := es;
     payload_allowed_mentions := JDict []; payload_message_reference := JDict [];
     payload_components := []; payload_flags := Some 0 |}.

Definition two_titles : list json :=
  [JDict [("title", JStr "a")]; JDict [("title", JStr "b")]].

(** The message [sent], edited with nothing given and with [embeds=[]]:
    one request each, with the two stored embeds and with none. *)
Lemma edit_embeds_preserved_or_cleared_witness :
  (exists p fs,
      snd (edit released accepting (sent (Some 1%nat) 0) nothing_given)
      = [edit_message 10 20 p fs] /\
      payload_embeds p = two_titles) /\
  (exists p fs,
      snd (edit released accepting (sent (Some 1%nat) 0) embeds_cleared)
      = [edit_message 10 20 p fs] /\
      payload_embeds p = []).
Proof.
  split.
  - apply (edit_embeds_preserved_or_cleared released accepting (sent (Some 1%nat) 0)
             nothing_given).
    + by exists 1%nat.
    + discriminate.
    + left. reflexivity.
    + intros _. by eexists.
    + discriminate.
    + reflexivity.
  - apply (edit_embeds_preserved_or_cleared released accepting (sent (Some 1%nat) 0)
             embeds_cleared).
    + by exists 1%nat.
    + discriminate.
    + left. reflexivity.
    + intros _. by eexists.
    + discriminate.
    + reflexivity.
Defined.

(** C5, as stated, fails for a message that has no client: [edit] leaves at
    its first guard with the library error of code 13, whether [embeds] is
    [[]] or left out, and no payload is built or sent. *)
Lemma edit_without_client_builds_no_payload :
  self_embeds (sent None 0) = Some [titled "a"; titled "b"] /\
  edit released accepting (sent None 0) embeds_cleared
  = (Raise (LibraryException 13 None), []) /\
  edit released accepting (sent None 0) nothing_given
  = (Raise (LibraryException 13 None), []).
Proof. repeat split; reflexivity. Qed.

(** The same message edited with [embeds=[]]: the request goes out with no
    embed. *)
Example edit_clears_embeds :
  edit released accepting (sent (Some 1%nat) 0) embeds_cleared
  = (Ok (sent (Some 1%nat) 0), [edit_message 10 20 (payload_with []) MISSING]).
Proof. reflexivity. Qed.

(** C10, as the code has it.  A message that has a client and whose flags
    equal 64 cannot be edited: [edit] raises the library error of code 12
    with its message, whatever the arguments, before any payload is built
    and without a request. *)
Theorem edit_hidden_message_raises ext world self a :
  is_Some (self_client self) ->
  self_flags self = Some 64 ->
  edit ext world self a = (Raise hidden_message, []).
Proof.
  intros [client Hclient] Hflags. unfold edit.
  rewrite Hclient, Hflags. rewrite bool_decide_eq_true_2; reflexivity.
Qed.

Lemma edit_hidden_message_raises_witness :
  edit released accepting (sent (Some 1%nat) 64) nothing_given
  = (Raise (LibraryException 12 (Some "You cannot edit a hidden message!")), []).
Proof.
  apply (edit_hidden_message_raises released accepting (sent (Some 1%nat) 64) nothing_given).
  - exists 1%nat. reflexivity.
  - reflexivity.
Defined.

(** C10, as stated, fails for a hidden message that has no client: the
    guard on [self._client] comes first and raises code 13. *)
Lemma edit_hidden_without_client :
  self_flags (sent None 64) = Some 64 /\
  edit released accepting (sent None 64) nothing_given
  = (Raise (LibraryException 13 None), []).
Proof. split; reflexivity. Qed.

(** Both guards leave without a request. *)
Lemma edit_guards_send_nothing ext world self a :
  self_client self = None \/ self_flags self = Some 64 ->
  snd (edit ext world self a) = [].
Proof.
  unfold edit. intros [-> | Hflags]; [reflexivity |].
  destruct (self_client self); [| reflexivity].
  rewrite Hflags, bool_decide_eq_true_2; reflexivity.
Qed.

End EditSpec.

(** * Further properties of [Message.delete] and [Message._slash_edit] *)
Module LifecycleFacts.
Import Py DisInteract.

Implicit Types (world : list call -> call -> result value) (self : Message).

(** Running [p] and then [f]: the calls of [f] follow those of [p], and an
    exception of [p] ends the run. *)
Lemma run_bind world (p : coroutine) (f : value -> coroutine) past :
  run world past (bind p f)
  = match returned (run world past p) with
    | Ok v =>
        let o := run world (calls (run world past p)) (f v) in
        Outcome (returned o) (calls o) (tasks (run world past p) ++ tasks o)
    | Raise e => run world past p
    end.
Proof.
  revert past. induction p as [v | e | c k IH | t _ k IH]; intros past; cbn.
  - by destruct (run world past (f v)).
  - reflexivity.
  - apply IH.
  - specialize (IH past).
    destruct (run world past k) as [[v|e] cs ts]; cbn in *; by rewrite IH.
Qed.

(** X1.  When the channel-scoped delete does not answer [Forbidden],
    [delete] makes no other call and creates no task: it returns [None] on
    success and raises what the call raised otherwise. *)
Theorem delete_without_fallback world self delay :
  world [] (super_delete delay) <> Raise Forbidden ->
  run world [] (delete self delay)
  = Outcome (match world [] (super_delete delay) with
             | Ok _ => Ok VNone
             | Raise e => Raise e
             end) [super_delete delay] [].
Proof.
  intros H. unfold delete. cbn.
  destruct (world [] (super_delete delay)) as [v|e]; cbn; [reflexivity|].
  destruct e; cbn; try reflexivity. congruence.
Qed.

Definition channel_down : list call -> call -> result value :=
  fun _ c => match c with super_delete _ => Raise (OtherError 500) | _ => Ok VNone end.

Definition plain : Message :=
  {| id := VInt 7; __interaction_token := VStr "token";
     _state_allowed_mentions := VMentions [("parse", VList [])] |}.

Lemma delete_without_fallback_witness :
  run channel_down [] (delete plain (VInt 3))
  = Outcome (Raise (OtherError 500)) [super_delete (VInt 3)] [].
Proof.
  apply (delete_without_fallback channel_down plain (VInt 3)). discriminate.
Defined.

(** X2.  The task of a deferred delete swallows [Forbidden] only: when the
    token-scoped delete raises another exception after the sleep, the task
    ends with that exception. *)
Theorem wrap_keeps_other_errors world past self delay e :
  is_Forbidden e = false ->
  is_Ok (world past (sleep delay)) = true ->
  world (past ++ [sleep delay])
    (http_delete (__interaction_token self) (id self)) = Raise e ->
  run world past (wrap self delay)
  = Outcome (Raise e)
      (past ++ [sleep delay; http_delete (__interaction_token self) (id self)]) [].
Proof.
  intros He Hsleep Hdel. unfold wrap. cbn.
  destruct (world past (sleep delay)); [| discriminate]. cbn.
  rewrite Hdel. cbn. rewrite He. cbn. by rewrite <- app_assoc.
Qed.

Definition token_expired : list call -> call -> result value :=
  fun _ c => match c with http_delete _ _ => Raise (OtherError 404) | _ => Ok VNone end.

Lemma wrap_keeps_other_errors_witness :
  run token_expired [] (wrap plain (VInt 3))
  = Outcome (Raise (OtherError 404))
      [sleep (VInt 3); http_delete (VStr "token") (VInt 7)] [].
Proof.
  apply (wrap_keeps_other_errors token_expired [] plain (VInt 3) (OtherError 404));
    reflexivity.
Defined.

(** X3.  When the sleep of the deferred task is itself ended by an
    exception, no delete is attempted: the only call is the sleep, and the
    task ends silently for [Forbidden] and with the exception otherwise. *)
Theorem wrap_interrupted_sleep world past self delay e :
  world past (sleep delay) = Raise e ->
  run world past (wrap self delay)
  = Outcome (if is_Forbidden e then Ok VNone else Raise e) (past ++ [sleep delay]) [].
Proof.
  intros Hsleep. unfold wrap. cbn. rewrite Hsleep. cbn.
  destruct (is_Forbidden e); reflexivity.
Qed.

Definition cancelled : list call -> call -> result value :=
  fun _ c => match c with sleep _ => Raise (OtherError 1) | _ => Ok VNone end.

Lemma wrap_interrupted_sleep_witness :
  run cancelled [] (wrap plain (VInt 3))
  = Outcome (Raise (OtherError 1)) [sleep (VInt 3)] [].
Proof.
  apply (wrap_interrupted_sleep cancelled [] plain (VInt 3) (OtherError 1)).
  reflexivity.
Defined.

End LifecycleFacts.

(** * Further properties of [Message._slash_edit] *)
Module SlashEditFacts.
Import Py DisInteract.

Implicit Types (world : list call -> call -> result value) (self : Message)
  (fields : gmap string value)
  (merge : list (string * value) -> value -> result value).

(** With the six subscribed keys present, [_slash_edit] is its [else]
    branch. *)
Lemma slash_edit_else merge self fields content components embed embeds file files :
  fields !! "content" = Some content ->
  fields !! "components" = Some components ->
  fields !! "embed" = Some embed ->
  fields !! "embeds" = Some embeds ->
  fields !! "file" = Some file ->
  fields !! "files" = Some files ->
  _slash_edit merge self fields
  = match
      _slash_edit_response merge self content components embed embeds file files
        (get fields "allowed_mentions")
    with
    | Raise e => Throw e
    | Ok (_, files) =>
        bind (if truthy (get fields "delete_after")
              then delete self (get fields "delete_after") else Ret VNone)
          (fun _ =>
             bind (if truthy files then
                     match iterate files with
                     | Ok fs => close_all fs
                     | Raise e => Throw e
                     end
                   else Ret VNone)
               (fun _ => Ret VNone))
    end.
Proof.
  intros Hcontent Hcomponents Hembed Hembeds Hfile Hfiles.
  unfold _slash_edit, required_fields, getitem.
  rewrite Hcontent, Hcomponents, Hembed, Hembeds, Hfile, Hfiles.
  cbn -[_slash_edit_response]. by destruct (_slash_edit_response _ _ _ _ _ _ _ _ _) as [[? ?]|].
Qed.

(** X4.  If any one of the keys content, components, embed, embeds, file and
    files is absent from the keywords, [_slash_edit] does nothing at all: it
    returns [None], raises nothing and makes no call, whatever the other
    keywords say. *)
Theorem slash_edit_missing_key_is_silent merge world self fields :
  fields !! "content" = None \/ fields !! "components" = None \/
  fields !! "embed" = None \/ fields !! "embeds" = None \/
  fields !! "file" = None \/ fields !! "files" = None ->
  run world [] (_slash_edit merge self fields) = Outcome (Ok VNone) [] [].
Proof.
  intros H. unfold _slash_edit, required_fields, getitem.
  destruct (fields !! "content"); cbn; [| reflexivity].
  destruct (fields !! "components"); cbn; [| reflexivity].
  destruct (fields !! "embed"); cbn; [| reflexivity].
  destruct (fields !! "embeds"); cbn; [| reflexivity].
  destruct (fields !! "file"); cbn; [| reflexivity].
  destruct (fields !! "files"); cbn; [| reflexivity].
  destruct H as [H | [H | [H | [H | [H | H]]]]]; discriminate.
Qed.

Definition keep_first : list (string * value) -> value -> result value :=
  fun d _ => Ok (VMentions d).

Definition quiet : list call -> call -> result value := fun _ _ => Ok VNone.

Definition configured : Message :=
  {| id := VInt 7; __interaction_token := VStr "token";
     _state_allowed_mentions := VMentions [("parse", VList [])] |}.

(** An edit of the content alone, as a caller would naturally write it. *)
Definition content_only : gmap string value :=
  list_to_map [("content", VStr "hi"); ("delete_after", VInt 5)].

Lemma slash_edit_missing_key_is_silent_witness :
  run quiet [] (_slash_edit keep_first configured content_only) = Outcome (Ok VNone) [] [].
Proof.
  apply (slash_edit_missing_key_is_silent keep_first quiet configured content_only).
  right. left. reflexivity.
Defined.

(** X5.  With the six keys present, [embeds=None] raises [TypeError] before
    any check and any call: the comprehension over [embeds] comes before the
    test that would have allowed [None]. *)
Theorem slash_edit_embeds_None_raises merge world self fields
    content components embed file files :
  fields !! "content" = Some content ->
  fields !! "components" = Some components ->
  fields !! "embed" = Some embed ->
  fields !! "embeds" = Some VNone ->
  fields !! "file" = Some file ->
  fields !! "files" = Some files ->
  run world [] (_slash_edit merge self fields) = Outcome (Raise TypeError) [] [].
Proof.
  intros Hcontent Hcomponents Hembed Hembeds Hfile Hfiles.
  by rewrite (slash_edit_else _ _ _ _ _ _ _ _ _ Hcontent Hcomponents Hembed Hembeds Hfile Hfiles).
Qed.

Definition all_None : gmap string value :=
  list_to_map
    [("content", VStr "hi"); ("components", VNone); ("embed", VNone);
     ("embeds", VNone); ("file", VNone); ("files", VNone)].

Lemma slash_edit_embeds_None_raises_witness :
  run quiet [] (_slash_edit keep_first configured all_None) = Outcome (Raise TypeError) [] [].
Proof.
  apply (slash_edit_embeds_None_raises keep_first quiet configured all_None
           (VStr "hi") VNone VNone VNone VNone); reflexivity.
Defined.

Lemma comprehension_to_dict (es : list value) :
  Forall (fun e => is_Ok (to_dict e) = true) es ->
  exists ds, comprehension to_dict es = Ok ds.
Proof.
  induction 1 as [| e es He _ [ds IH]]; [by exists [] |].
  destruct (to_dict e) as [d|] eqn:Hd; [| discriminate].
  exists (d :: ds). cbn. rewrite Hd. cbn. rewrite IH. reflexivity.
Qed.

(** X6.  With the six keys present and a list of more than ten embeds, the
    call raises the format error "Do not provide more than 10 embeds." and
    makes no call. *)
Theorem slash_edit_too_many_embeds merge world self fields
    content components embed es file files :
  fields !! "content" = Some content ->
  fields !! "components" = Some components ->
  fields !! "embed" = Some embed ->
  fields !! "embeds" = Some (VList es) ->
  fields !! "file" = Some file ->
  fields !! "files" = Some files ->
  Forall (fun e => is_Ok (to_dict e) = true) es ->
  (10 < length es)%nat ->
  run world [] (_slash_edit merge self fields)
  = Outcome (Raise (FormatError "Do not provide more than 10 embeds.")) [] [].
Proof.
  intros Hcontent Hcomponents Hembed Hembeds Hfile Hfiles Hes Hlen.
  rewrite (slash_edit_else _ _ _ _ _ _ _ _ _ Hcontent Hcomponents Hembed Hembeds Hfile Hfiles).
  destruct (comprehension_to_dict es Hes) as [ds Hds].
  unfold _slash_edit_response. cbn. rewrite Hds. cbn.
  assert (Hn : (10 <? Z.of_nat (length es)) = true) by (apply Z.ltb_lt; lia).
  destruct (is_None embed); cbn.
  - by rewrite Hn.
  - unfold getitem. rewrite lookup_insert_eq. cbn. by rewrite Hn.
Qed.

Definition eleven_embeds : gmap string value :=
  list_to_map
    [("content", VStr "hi"); ("components", VNone); ("embed", VEmbed []);
     ("embeds", VList (replicate 11 (VEmbed []))); ("file", VNone); ("files", VNone)].

Lemma slash_edit_too_many_embeds_witness :
  run quiet [] (_slash_edit keep_first configured eleven_embeds)
  = Outcome (Raise (FormatError "Do not provide more than 10 embeds.")) [] [].
Proof.
  apply (slash_edit_too_many_embeds keep_first quiet configured eleven_embeds
           (VStr "hi") VNone (VEmbed []) (replicate 11 (VEmbed [])) VNone VNone);
    try reflexivity.
  - repeat constructor.
  - cbn. lia.
Defined.

(** X7.  A single file is never accepted.  With the six keys present, a list
    of at most ten embeds and a [file] that is true, the call raises the
    format error about using both [file] and [files], also when [files] is
    [None]: [files] is rebound to [[file]] before the test. *)
Theorem slash_edit_single_file_refused merge world self fields
    content components embed es file files :
  fields !! "content" = Some content ->
  fields !! "components" = Some components ->
  fields !! "embed" = Some embed ->
  fields !! "embeds" = Some (VList es) ->
  fields !! "file" = Some file ->
  fields !! "files" = Some files ->
  Forall (fun e => is_Ok (to_dict e) = true) es ->
  (length es <= 10)%nat ->
  truthy file = true ->
  run world [] (_slash_edit merge self fields)
  = Outcome
      (Raise (FormatError "You can't use both file and files kwargs at the same time."))
      [] [].
Proof.
  intros Hcontent Hcomponents Hembed Hembeds Hfile Hfiles Hes Hlen Htrue.
  rewrite (slash_edit_else _ _ _ _ _ _ _ _ _ Hcontent Hcomponents Hembed Hembeds Hfile Hfiles).
  destruct (comprehension_to_dict es Hes) as [ds Hds].
  unfold _slash_edit_response. cbn. rewrite Hds. cbn.
  assert (Hn : (10 <? Z.of_nat (length es)) = false) by (apply Z.ltb_ge; lia).
  assert (Hf : is_None file = false) by (by destruct file).
  rewrite Htrue, Hf.
  destruct (is_None embed); cbn.
  - by rewrite Hn.
  - unfold getitem. rewrite lookup_insert_eq. cbn. by rewrite Hn.
Qed.

Definition one_file : gmap string value :=
  list_to_map
    [("content", VStr "hi"); ("components", VNone); ("embed", VNone);
     ("embeds", VList []); ("file", VFile 1); ("files", VNone)].

Lemma slash_edit_single_file_refused_witness :
  run quiet [] (_slash_edit keep_first configured one_file)
  = Outcome
      (Raise (FormatError "You can't use both file and files kwargs at the same time."))
      [] [].
Proof.
  apply (slash_edit_single_file_refused keep_first quiet configured one_file
           (VStr "hi") VNone VNone [] (VFile 1) VNone); try reflexivity.
  - constructor.
  - cbn. lia.
Defined.

(** The response is completed when the embeds are a list of at most ten
    embeds, no single file is given, allowed mentions are supplied and the
    client has a default. *)
Lemma slash_edit_response_complete merge self content components embed es files mentions :
  Forall (fun e => is_Ok (to_dict e) = true) es ->
  (length es <= 10)%nat ->
  is_None mentions = false ->
  is_None (_state_allowed_mentions self) = false ->
  exists _response,
    _slash_edit_response merge self content components embed (VList es) VNone files mentions
    = Ok (_response, files).
Proof.
  intros Hes Hlen Hm Hs.
  destruct (comprehension_to_dict es Hes) as [ds Hds].
  unfold _slash_edit_response, resolve_allowed_mentions. cbn. rewrite Hds. cbn.
  assert (Hn : (10 <? Z.of_nat (length es)) = false) by (apply Z.ltb_ge; lia).
  rewrite Hm, Hs, Hn, andb_false_r.
  destruct (is_None embed); cbn.
  - by eexists.
  - unfold getitem. rewrite lookup_insert_eq. cbn. rewrite ?Hn, ?andb_false_r. by eexists.
Qed.



Definition only_users : value := VMentions [("parse", VList [VStr "users"])].

Definition two_files : gmap string value :=
  list_to_map
    [("content", VStr "hi"); ("components", VNone); ("embed", VNone);
     ("embeds", VList [VEmbed []]); ("file", VNone);
     ("files", VList [VFile 3; VFile 4]); ("allowed_mentions", only_users)].


(** X9.  The files are not closed when the deletion asked for by
    [delete_after] fails: if the edit is accepted and the channel-scoped
    delete raises something other than [Forbidden], that exception leaves
    [_slash_edit] and no [close] is made, whatever [files] holds. *)
Theorem slash_edit_failed_delete_leaves_files_open merge world self fields
    content components embed es files mentions after e :
  fields !! "content" = Some content ->
  fields !! "components" = Some components ->
  fields !! "embed" = Some embed ->
  fields !! "embeds" = Some (VList es) ->
  fields !! "file" = Some VNone ->
  fields !! "files" = Some files ->
  fields !! "allowed_mentions" = Some mentions ->
  fields !! "delete_after" = Some after ->
  Forall (fun e => is_Ok (to_dict e) = true) es ->
  (length es <= 10)%nat ->
  is_None mentions = false ->
  is_None (_state_allowed_mentions self) = false ->
  truthy after = true ->
  world [] (super_delete after) = Raise e ->
  is_Forbidden e = false ->
  run world [] (_slash_edit merge self fields)
  = Outcome (Raise e) [super_delete after] [].
Proof.
  intros Hcontent Hcomponents Hembed Hembeds Hfile Hfiles Hmentions Hafter
    Hes Hlen Hm Hs Htrue Hworld He.
  rewrite (slash_edit_else _ _ _ _ _ _ _ _ _ Hcontent Hcomponents Hembed Hembeds Hfile Hfiles).
  unfold get. rewrite Hmentions, Hafter. cbn [default from_option Datatypes.id].
  destruct (slash_edit_response_complete merge self content components embed es
              files mentions Hes Hlen Hm Hs) as [r ->].
  rewrite Htrue, LifecycleFacts.run_bind.
  assert (Hrun : run world [] (delete self after)
                 = Outcome (Raise e) [super_delete after] []).
  { unfold delete. cbn. rewrite Hworld. cbn. by rewrite He. }
  by rewrite Hrun.
Qed.

Definition two_files_then_delete : gmap string value :=
  <["delete_after" := VInt 5]> two_files.

Lemma slash_edit_failed_delete_leaves_files_open_witness :
  run LifecycleFacts.channel_down [] (_slash_edit keep_first configured two_files_then_delete)
  = Outcome (Raise (OtherError 500)) [super_delete (VInt 5)] [].
Proof.
  apply (slash_edit_failed_delete_leaves_files_open keep_first LifecycleFacts.channel_down
           configured two_files_then_delete
           (VStr "hi") VNone VNone [VEmbed []] (VList [VFile 3; VFile 4]) only_users
           (VInt 5) (OtherError 500));
    try reflexivity.
  - repeat constructor.
  - cbn. lia.
Defined.

End SlashEditFacts.

(** * Further properties of the schema classes *)
Module SchemaFacts.
Import Py DisInteract.

(** X10.  [BaseCommand] can be built exactly when no option is declared:
    with an empty list the command is returned, with any other list the
    construction of its first option raises. *)
Theorem BaseCommand_init_Ok_iff name description options dp i app ver :
  is_Ok (BaseCommand__init__ name description options dp i app ver) = true
  <-> options = [].
Proof.
  split.
  - destruct options as [| o os]; [reflexivity |].
    unfold BaseCommand__init__. cbn.
    destruct (SchemaSpec.BaseOption_init_outcomes o) as [-> | ->]; discriminate.
  - intros ->. reflexivity.
Qed.

Lemma BaseCommand_init_Ok_iff_witness :
  is_Ok (BaseCommand__init__ (VStr "ping") (VStr "Replies") [] (VBool true)
           VNone VNone VNone) = true.
Proof.
  apply (BaseCommand_init_Ok_iff (VStr "ping") (VStr "Replies") [] (VBool true)
           VNone VNone VNone).
  reflexivity.
Defined.

(** X11.  Two commands built without options, with strings for name and
    description and a boolean default permission, are equal exactly when
    these three agree; id, application id and version play no part. *)
Theorem BaseCommand_eq_ignores_identity (same_object : value -> value -> bool)
    (n d n' d' : string) (dp dp' : bool) i app ver i' app' ver' :
  match BaseCommand__init__ (VStr n) (VStr d) [] (VBool dp) i app ver,
        BaseCommand__init__ (VStr n') (VStr d') [] (VBool dp') i' app' ver' with
  | Ok c, Ok c' =>
      py_eq same_object c c'
      = Ok (String.eqb n n' && String.eqb d d' && Bool.eqb dp dp')
  | _, _ => False
  end.
Proof.
  cbn. destruct (String.eqb n n'), (String.eqb d d'), dp, dp'; reflexivity.
Qed.

(** A tuple compares the items that both tuples have before it compares
    the lengths, a list the lengths first.  Two choices with the same
    attributes (not one object) cannot be compared, and the tuple meets
    that comparison where the list has already answered. *)
Example tuple_eq_compares_items_first :
  let c := VBaseChoice (VStr "red") (VInt 1) in
  py_eq (fun _ _ => false) (VTuple [c]) (VTuple [c; VInt 2]) = Raise AttributeError /\
  py_eq (fun _ _ => false) (VList [c]) (VList [c; VInt 2]) = Ok false /\
  py_eq (fun _ _ => false) (VTuple [VInt 1]) (VTuple [VInt 1; VInt 2]) = Ok false /\
  py_eq (fun _ _ => false) (VTuple [VInt 1; VInt 2]) (VTuple [VInt 1; VInt 2]) = Ok true.
Proof. repeat split; reflexivity. Qed.

(** Induction over a declaration and the declarations nested in it. *)
Lemma GuildPermissionDecl_nested_ind (P : GuildPermissionDecl -> Prop) :
  (forall i g ps others, (forall l, ps = Some l -> Forall P l) ->
                         P (mkGuildPermissionDecl i g ps others)) ->
  forall d, P d.
Proof.
  intros Hmk. fix IH 1. intros [i g [ps |] others]; apply Hmk; [| discriminate].
  intros l [= <-]. induction ps as [| p ps IHps]; constructor; [apply IH | exact IHps].
Qed.

(** A declaration carries id, guild_id and permissions and no other
    keyword, and so do the nested ones. *)
Fixpoint exact_keywords (d : GuildPermissionDecl) : bool :=
  match d with
  | mkGuildPermissionDecl (Some _) (Some _) (Some ps) [] => forallb exact_keywords ps
  | _ => false
  end.

Definition nest (acc : value) (permission : GuildPermissionDecl) : result value :=
  match BaseGuildPermission__init__ permission with
  | Ok p => append acc p
  | Raise e => Raise e
  end.

Lemma BaseGuildPermission_init_unfold i g ps :
  BaseGuildPermission__init__ (mkGuildPermissionDecl (Some i) (Some g) (Some ps) [])
  = match for_each nest (VList []) ps with
    | Ok self_permissions => Ok (VBaseGuildPermission i g self_permissions)
    | Raise e => Raise e
    end.
Proof. reflexivity. Qed.

(** The loop over nested declarations: all built and appended in order, or
    [TypeError] at the first one that lacks a keyword or has one too many. *)
Lemma nest_loop ps :
  Forall (fun d => if exact_keywords d
                   then is_Ok (BaseGuildPermission__init__ d) = true
                   else BaseGuildPermission__init__ d = Raise TypeError) ps ->
  forall acc,
    if forallb exact_keywords ps
    then exists vs,
        for_each nest (VList acc) ps = Ok (VList (acc ++ vs)) /\
        Forall2 (fun d v => BaseGuildPermission__init__ d = Ok v) ps vs
    else for_each nest (VList acc) ps = Raise TypeError.
Proof.
  induction 1 as [| d ps Hd _ IH]; intros acc; cbn.
  - exists []. by rewrite app_nil_r.
  - unfold nest at 1 3. destruct (exact_keywords d); cbn.
    + destruct (BaseGuildPermission__init__ d) as [v|] eqn:Hv; [| discriminate]. cbn.
      specialize (IH (acc ++ [v])). destruct (forallb exact_keywords ps).
      * destruct IH as (vs & -> & Hvs). exists (v :: vs).
        split; [by rewrite <- app_assoc | by constructor].
      * exact IH.
    + by rewrite Hd.
Qed.

Lemma BaseGuildPermission_init_cases d :
  if exact_keywords d
  then is_Ok (BaseGuildPermission__init__ d) = true
  else BaseGuildPermission__init__ d = Raise TypeError.
Proof.
  induction d as [i g ps others IH] using GuildPermissionDecl_nested_ind.
  destruct i as [i|], g as [g|], ps as [ps|], others as [| kv others]; try reflexivity.
  rewrite BaseGuildPermission_init_unfold. cbn [exact_keywords].
  pose proof (nest_loop ps (IH ps eq_refl) []) as Hloop.
  destruct (forallb exact_keywords ps).
  - by destruct Hloop as (vs & -> & _).
  - by rewrite Hloop.
Qed.

(** X12.  For a declaration whose [permissions], where given, is a list of
    dictionaries with string keys: a guild permission set is built exactly
    when its declaration and every declaration nested in [permissions], at
    any depth, carries id, guild_id and permissions and nothing else;
    otherwise the construction raises [TypeError].  So an entry that is a
    plain override, without guild_id, is refused, and so is an entry with a
    fourth key. *)
Theorem BaseGuildPermission_init_needs_keywords d :
  is_Ok (BaseGuildPermission__init__ d) = exact_keywords d /\
  (exact_keywords d = false -> BaseGuildPermission__init__ d = Raise TypeError).
Proof.
  pose proof (BaseGuildPermission_init_cases d) as H.
  destruct (exact_keywords d); [by split | split; [by rewrite H | done]].
Qed.

(** A set for command 1 in guild 9 whose single entry is an override of
    role 5, given without guild_id. *)
Definition plain_override : GuildPermissionDecl :=
  mkGuildPermissionDecl (Some (VInt 1)) (Some (VInt 9))
    (Some [mkGuildPermissionDecl (Some (VInt 5)) None None []]) [].

(** The same set with a complete entry that also says which kind of
    override it is. *)
Definition typed_entry : GuildPermissionDecl :=
  mkGuildPermissionDecl (Some (VInt 1)) (Some (VInt 9))
    (Some [mkGuildPermissionDecl (Some (VInt 5)) (Some (VInt 9)) (Some [])
             [("type", VInt 1)]]) [].

Lemma BaseGuildPermission_init_needs_keywords_witness :
  BaseGuildPermission__init__ plain_override = Raise TypeError /\
  BaseGuildPermission__init__ typed_entry = Raise TypeError.
Proof.
  split.
  - apply (BaseGuildPermission_init_needs_keywords plain_override). reflexivity.
  - apply (BaseGuildPermission_init_needs_keywords typed_entry). reflexivity.
Defined.

(** *** Equality of guild permission sets *)
Section GuildEquality.
Variable same_object : value -> value -> bool.

Lemma py_eq_list_cons x xs y ys :
  length xs = length ys ->
  py_eq same_object (VList (x :: xs)) (VList (y :: ys))
  = and_then (if same_object x y then Ok true else py_eq same_object x y)
      (py_eq same_object (VList xs) (VList ys)).
Proof. intros H. cbn. rewrite H, Nat.eqb_refl. reflexivity. Qed.

Lemma py_eq_list_refl vs :
  Forall (fun v => py_eq same_object v v = Ok true) vs ->
  py_eq same_object (VList vs) (VList vs) = Ok true.
Proof.
  induction 1 as [| v vs Hv _ IH]; [reflexivity |].
  rewrite py_eq_list_cons by reflexivity. rewrite Hv, IH.
  by destruct (same_object v v).
Qed.

(** The three keywords alone, with ids given as integers, here and in the
    nested declarations. *)
Fixpoint integer_ids (d : GuildPermissionDecl) : bool :=
  match d with
  | mkGuildPermissionDecl (Some (VInt _)) (Some (VInt _)) (Some ps) [] =>
      forallb integer_ids ps
  | _ => false
  end.

Lemma nest_loop_refl ps :
  Forall (fun d => integer_ids d = true ->
                   exists g, BaseGuildPermission__init__ d = Ok g /\
                             py_eq same_object g g = Ok true) ps ->
  forallb integer_ids ps = true ->
  forall acc, exists vs,
    for_each nest (VList acc) ps = Ok (VList (acc ++ vs)) /\
    Forall (fun v => py_eq same_object v v = Ok true) vs.
Proof.
  induction 1 as [| d ps Hd _ IH]; intros Hall acc; cbn.
  - exists []. by rewrite app_nil_r.
  - cbn in Hall. apply andb_prop in Hall as [Hint Hrest].
    destruct (Hd Hint) as (g & Hg & Hrefl).
    unfold nest at 1. rewrite Hg. cbn.
    destruct (IH Hrest (acc ++ [g])) as (vs & -> & Hvs).
    exists (g :: vs). split; [by rewrite <- app_assoc | by constructor].
Qed.

(** X13.  A guild permission set declared with integer ids, at any depth of
    nesting and with no keyword besides the three, is built and is equal to
    itself. *)
Theorem BaseGuildPermission_eq_reflexive d :
  integer_ids d = true ->
  exists g, BaseGuildPermission__init__ d = Ok g /\ py_eq same_object g g = Ok true.
Proof.
  induction d as [i g ps others IH] using GuildPermissionDecl_nested_ind.
  destruct i as [[]|], g as [[]|], ps as [ps|], others as [| kv others]; try discriminate.
  cbn [integer_ids]. intros Hall.
  destruct (nest_loop_refl ps (IH ps eq_refl) Hall []) as (vs & Hloop & Hvs).
  rewrite BaseGuildPermission_init_unfold, Hloop. eexists. split; [reflexivity |].
  cbn [app]. change (py_eq same_object (VBaseGuildPermission (VInt n) (VInt n0) (VList vs))
                       (VBaseGuildPermission (VInt n) (VInt n0) (VList vs)))
    with (and_then (py_eq same_object (VInt n) (VInt n))
            (and_then (py_eq same_object (VInt n0) (VInt n0))
               (py_eq same_object (VList vs) (VList vs)))).
  rewrite (py_eq_list_refl vs Hvs). cbn. by rewrite !Z.eqb_refl.
Qed.
End GuildEquality.

Definition nested_set : GuildPermissionDecl :=
  let leaf n := mkGuildPermissionDecl (Some (VInt n)) (Some (VInt 9)) (Some []) [] in
  mkGuildPermissionDecl (Some (VInt 1)) (Some (VInt 9))
    (Some [leaf 2; mkGuildPermissionDecl (Some (VInt 3)) (Some (VInt 9)) (Some [leaf 4]) []])
    [].

Lemma BaseGuildPermission_eq_reflexive_witness :
  exists g, BaseGuildPermission__init__ nested_set = Ok g /\
            py_eq (fun _ _ => false) g g = Ok true.
Proof.
  apply (BaseGuildPermission_eq_reflexive (fun _ _ => false) nested_set). reflexivity.
Defined.

End SchemaFacts.

(** * Further properties of [Message.edit] *)
Module EditFacts.
Import Py Interactions.

Lemma build_payload_parts ext self a p fs :
  build_payload ext self a = Ok (p, fs) ->
  exists _flags _attachments _reference _components,
    edit_flags ext self a = Ok _flags /\
    edit_attachments self a = Ok _attachments /\
    edit_message_reference a = Ok _reference /\
    edit_components ext self a = Ok _components /\
    fs = snd (edit_files ext a) /\
    p = {| payload_content :=
             match content a with MISSING => self_content self | Given c => c end;
           payload_tts := match tts a with MISSING => Some false | Given t => t end;
           payload_attachments := fst (edit_files ext a) ++ _attachments;
           payload_embeds := edit_embeds self a;
           payload_allowed_mentions := edit_allowed_mentions a;
           payload_message_reference := _reference;
           payload_components := _components;
           payload_flags := _flags |}.
Proof.
  unfold build_payload.
  destruct (edit_flags ext self a) as [f|]; cbn; [| discriminate].
  destruct (edit_attachments self a) as [ats|]; cbn; [| discriminate].
  destruct (edit_files ext a) as [js up].
  destruct (edit_message_reference a) as [r|]; cbn; [| discriminate].
  destruct (edit_components ext self a) as [cs|]; cbn; [| discriminate].
  intros [= <- <-]. by exists f, ats, r, cs.
Qed.

Lemma sent_payload ext world self a c m p fs :
  In (edit_message c m p fs) (snd (edit ext world self a)) ->
  build_payload ext self a = Ok (p, fs).
Proof.
  intros Hin. apply EditSpec.edit_request in Hin as (p' & fs' & [= _ _ <- <-] & Hbuild).
  exact Hbuild.
Qed.

(** X14.  In every request that [edit] sends, an omitted [content] is
    replaced by the stored content of the message, but an omitted [tts] and
    omitted allowed mentions are not taken from the message: they go out as
    [False] and as the empty dictionary. *)
Theorem edit_partial_fields ext world self a c m p fs :
  In (edit_message c m p fs) (snd (edit ext world self a)) ->
  payload_content p
  = match content a with MISSING => self_content self | Given x => x end /\
  (tts a = MISSING -> payload_tts p = Some false) /\
  (allowed_mentions a = MISSING -> payload_allowed_mentions p = JDict []).
Proof.
  intros Hin. apply sent_payload in Hin.
  apply build_payload_parts in Hin as (f & ats & r & cs & _ & _ & _ & _ & _ & ->).
  cbn. repeat split.
  - by intros ->.
  - unfold edit_allowed_mentions. by intros ->.
Qed.

Lemma edit_partial_fields_witness :
  payload_content (EditSpec.payload_with EditSpec.two_titles) = Some "hello" /\
  payload_tts (EditSpec.payload_with EditSpec.two_titles) = Some false /\
  payload_allowed_mentions (EditSpec.payload_with EditSpec.two_titles) = JDict [].
Proof.
  destruct (edit_partial_fields EditSpec.released EditSpec.accepting
              (EditSpec.sent (Some 1%nat) 0) EditSpec.nothing_given 10 20
              (EditSpec.payload_with EditSpec.two_titles) MISSING) as (Hc & Ht & Hm).
  - vm_compute. left. reflexivity.
  - split; [exact Hc | split; [exact (Ht eq_refl) | exact (Hm eq_refl)]].
Defined.

Lemma enumerate_payloads_lookup (fs : list File) i (k : nat) :
  enumerate_payloads i fs !! k
  = (fun f => _json_payload f (i + Z.of_nat k)) <$> fs !! k.
Proof.
  revert i k. induction fs as [| f fs IH]; intros i [| k]; cbn; try reflexivity.
  - by rewrite Z.add_0_r.
  - rewrite IH. destruct (fs !! k); cbn; [| reflexivity].
    do 2 f_equal. lia.
Qed.

Lemma enumerate_payloads_length (fs : list File) i :
  length (enumerate_payloads i fs) = length fs.
Proof. revert i. induction fs as [| f fs IH]; intros i; cbn; [done | by rewrite IH]. Qed.

(** X15.  When [files] is a list, the payload lists one entry per file
    first, the file at position [k] serialised with the id [k], and the
    attachments after them. *)
Theorem edit_files_numbered ext world self a c m p up (fs : list File) :
  In (edit_message c m p up) (snd (edit ext world self a)) ->
  files a = Given (Many fs) ->
  (forall (k : nat) f, fs !! k = Some f ->
     payload_attachments p !! k = Some (_json_payload f (Z.of_nat k))) /\
  exists _attachments,
    edit_attachments self a = Ok _attachments /\
    payload_attachments p = enumerate_payloads 0 fs ++ _attachments.
Proof.
  intros Hin Hfiles. apply sent_payload in Hin.
  apply build_payload_parts in Hin as (f & ats & r & cs & _ & Hats & _ & _ & _ & ->).
  cbn.
  assert (Hjs : fst (edit_files ext a) = enumerate_payloads 0 fs).
  { unfold edit_files. rewrite Hfiles. cbn. by destruct fs. }
  rewrite Hjs. split; [| by exists ats].
  intros k file Hk. rewrite lookup_app_l.
  - rewrite enumerate_payloads_lookup, Hk. reflexivity.
  - rewrite enumerate_payloads_length. by eapply lookup_lt_Some.
Qed.

Definition named (n : string) : File :=
  {| _json_payload := fun i => JDict [("id", JInt i); ("filename", JStr n)] |}.

Definition two_uploads : EditArgs :=
  {| content := MISSING; tts := MISSING; files := Given (Many [named "a.png"; named "b.png"]);
     embeds := MISSING; suppress_embeds := MISSING; allowed_mentions := MISSING;
     message_reference := MISSING; attachments := MISSING; components := MISSING |}.

Definition two_uploads_payload : Payload :=
  {| payload_content := Some "hello"; payload_tts := Some false;
     payload_attachments :=
       [JDict [("id", JInt 0); ("filename", JStr "a.png")];
        JDict [("id", JInt 1); ("filename", JStr "b.png")]];
     payload_embeds := EditSpec.two_titles;
     payload_allowed_mentions := JDict []; payload_message_reference := JDict [];
     payload_components := []; payload_flags := Some 0 |}.

Lemma edit_files_numbered_witness :
  payload_attachments two_uploads_payload !! 1%nat
  = Some (JDict [("id", JInt 1); ("filename", JStr "b.png")]).
Proof.
  destruct (edit_files_numbered EditSpec.released EditSpec.accepting
              (EditSpec.sent (Some 1%nat) 0) two_uploads 10 20 two_uploads_payload
              (Given (Many [named "a.png"; named "b.png"]))
              [named "a.png"; named "b.png"]) as [Hk _].
  - vm_compute. left. reflexivity.
  - reflexivity.
  - exact (Hk 1%nat (named "b.png") eq_refl).
Defined.

(** X16.  When the flag constant is a single bit [2^k] that its complement
    lacks and [suppress_embeds] is given, bit [k] of the flags in the
    request is set exactly when [suppress_embeds] is true.  Setting the flag
    keeps every other stored bit as it was.  Clearing it sets no bit and
    keeps a stored bit only where the complement has that bit too: with a
    complement made of the declared flags, a stored bit outside them is
    lost. *)
Theorem edit_suppress_embeds_bit ext world self a c m p up (k f : Z) s :
  In (edit_message c m p up) (snd (edit ext world self a)) ->
  SUPPRESS_EMBEDS ext = 2 ^ k ->
  0 <= k ->
  Z.testbit (not_SUPPRESS_EMBEDS ext) k = false ->
  self_flags self = Some f ->
  suppress_embeds a = Given s ->
  exists f',
    payload_flags p = Some f' /\
    Z.testbit f' k = truthy_option (fun b : bool => b) s /\
    forall j, j <> k ->
      Z.testbit f' j
      = if truthy_option (fun b : bool => b) s then Z.testbit f j
        else Z.testbit f j && Z.testbit (not_SUPPRESS_EMBEDS ext) j.
Proof.
  intros Hin Hbit Hk Hnot Hflags Hs. apply sent_payload in Hin.
  apply build_payload_parts in Hin as (fl & ats & r & cs & Hfl & _ & _ & _ & _ & ->).
  cbn. unfold edit_flags in Hfl. rewrite Hs, Hflags, Hbit in Hfl.
  assert (Hpow : forall j, 0 <= j -> Z.testbit (2 ^ k) j = (k =? j)).
  { intros j Hj. by apply Z.pow2_bits_eqb. }
  destruct (truthy_option _ s); injection Hfl as <-; eexists; (split; [reflexivity |]).
  - split.
    + rewrite Z.lor_spec, Hpow, Z.eqb_refl by lia. apply orb_true_r.
    + intros j Hj. destruct (Z.neg_nonneg_cases j) as [Hneg | Hpos].
      * by rewrite !Z.testbit_neg_r.
      * rewrite Z.lor_spec, Hpow by lia.
        destruct (Z.eqb_spec k j); [congruence | apply orb_false_r].
  - split.
    + rewrite Z.land_spec, Hnot. apply andb_false_r.
    + intros j _. apply Z.land_spec.
Qed.

Definition suppressing (b : bool) : EditArgs :=
  {| content := MISSING; tts := MISSING; files := MISSING; embeds := MISSING;
     suppress_embeds := Given (Some b); allowed_mentions := MISSING;
     message_reference := MISSING; attachments := MISSING; components := MISSING |}.

(** Stored flags 4100, bit 2 and the undeclared bit 12, edited with
    [suppress_embeds=False]: the request carries the flags 0. *)
Lemma edit_suppress_embeds_bit_witness :
  exists f',
    payload_flags (EditSpec.payload_with EditSpec.two_titles) = Some f' /\
    Z.testbit f' 2 = false /\
    forall j, j <> 2 -> Z.testbit f' j = Z.testbit 4100 j && Z.testbit 507 j.
Proof.
  apply (edit_suppress_embeds_bit EditSpec.released EditSpec.accepting
           (EditSpec.sent (Some 1%nat) 4100) (suppressing false) 10 20
           (EditSpec.payload_with EditSpec.two_titles) MISSING 2 4100 (Some false));
    try reflexivity.
  - vm_compute. left. reflexivity.
  - lia.
Defined.

(** With the integer complement instead, as the flag class gave it before
    it kept to its declared members, only bit 2 goes. *)
Example edit_suppress_embeds_integer_complement :
  let earlier :=
    {| MISSING_truthy := true; SUPPRESS_EMBEDS := 4; not_SUPPRESS_EMBEDS := Z.lnot 4;
       _build_components := _build_components EditSpec.released;
       update := update EditSpec.released |} in
  build_payload earlier (EditSpec.sent (Some 1%nat) 4100) (suppressing false)
  = Ok ({| payload_content := Some "hello"; payload_tts := Some false;
           payload_attachments := []; payload_embeds := EditSpec.two_titles;
           payload_allowed_mentions := JDict []; payload_message_reference := JDict [];
           payload_components := []; payload_flags := Some 4096 |}, MISSING).
Proof. reflexivity. Qed.

(** X17.  On a message that has a client but no stored flags, giving
    [suppress_embeds] (true or false) raises [TypeError] from the flag
    arithmetic, and no request is sent. *)
Theorem edit_suppress_embeds_without_flags ext world self a s :
  is_Some (self_client self) ->
  self_flags self = None ->
  suppress_embeds a = Given s ->
  edit ext world self a = (Raise TypeError, []).
Proof.
  intros [client Hclient] Hflags Hs. unfold edit, build_payload, edit_flags.
  rewrite Hclient, Hflags, Hs. reflexivity.
Qed.

Definition unflagged : Message :=
  {| self_client := Some 1%nat; self_id := 20; self_channel_id := 10;
     self_content := Some "hello"; self_attachments := Some [];
     self_embeds := None; self_flags := None; self_components := None |}.

Lemma edit_suppress_embeds_without_flags_witness :
  edit EditSpec.released EditSpec.accepting unflagged (suppressing false)
  = (Raise TypeError, []).
Proof.
  apply (edit_suppress_embeds_without_flags EditSpec.released EditSpec.accepting
           unflagged (suppressing false) (Some false)); try reflexivity.
  by exists 1%nat.
Defined.

End EditFacts.

(** * Properties of the field list of [Embed] *)
Module EmbedFacts.
Import Embeds.

Implicit Types (self : Embed) (index : Z) (name value : string) (inline : option bool).

Lemma fields_or_empty_set_fields self fs : fields_or_empty (set_fields self fs) = fs.
Proof. reflexivity. Qed.

Lemma set_fields_twice self fs fs' : set_fields (set_fields self fs) fs' = set_fields self fs'.
Proof. reflexivity. Qed.

Lemma position_in_range n index :
  is_Some (position n index) <-> - Z.of_nat n <= index < Z.of_nat n.
Proof.
  unfold position.
  destruct (Z.leb_spec 0 index), (Z.ltb_spec index (Z.of_nat n)),
    (Z.ltb_spec index 0), (Z.leb_spec 0 (index + Z.of_nat n)); cbn;
    (split; [intros [k Hk]; first [lia | discriminate] | intros ?; first [by eexists | lia]]).
Qed.

Lemma position_nonneg n index :
  0 <= index < Z.of_nat n -> position n index = Some (Z.to_nat index).
Proof.
  intros H. unfold position.
  destruct (Z.leb_spec 0 index), (Z.ltb_spec index (Z.of_nat n)); try lia. reflexivity.
Qed.

Lemma position_negative n index :
  - Z.of_nat n <= index < 0 -> position n index = Some (Z.to_nat (index + Z.of_nat n)).
Proof.
  intros H. unfold position.
  destruct (Z.leb_spec 0 index), (Z.ltb_spec index 0),
    (Z.leb_spec 0 (index + Z.of_nat n)); try lia; cbn; reflexivity.
Qed.

Lemma position_lt n index k : position n index = Some k -> (k < n)%nat.
Proof.
  unfold position.
  destruct (Z.leb_spec 0 index), (Z.ltb_spec index (Z.of_nat n)),
    (Z.ltb_spec index 0), (Z.leb_spec 0 (index + Z.of_nat n)); cbn;
    intros [= <-]; lia.
Qed.

Lemma insert_position_le n index : (insert_position n index <= n)%nat.
Proof. unfold insert_position. destruct (Z.ltb_spec index 0); lia. Qed.

Lemma list_insert_at_length {A} (l : list A) index x :
  length (list_insert_at l index x) = S (length l).
Proof.
  unfold list_insert_at. pose proof (insert_position_le (length l) index).
  rewrite length_app, length_take. cbn. rewrite length_drop. lia.
Qed.

Lemma fits_ssize_t_spec index :
  fits_ssize_t index = true <-> - maxsize - 1 <= index <= maxsize.
Proof. unfold fits_ssize_t. rewrite andb_true_iff, !Z.leb_le. reflexivity. Qed.

Lemma fits_ssize_t_false index :
  fits_ssize_t index = false <-> ~ (- maxsize - 1 <= index <= maxsize).
Proof. rewrite <- fits_ssize_t_spec. by destruct (fits_ssize_t index). Qed.

Lemma maxsize_pos : 0 < maxsize.
Proof. reflexivity. Qed.

(** An index that points into a list, or just behind it, fits when the
    list is one that the machine can hold. *)
Lemma fits_within n index :
  Z.of_nat n <= maxsize ->
  - Z.of_nat n <= index <= Z.of_nat n ->
  fits_ssize_t index = true.
Proof. intros Hn H. apply fits_ssize_t_spec. lia. Qed.

(** X18.  [insert_field_at] raises [OverflowError], with the fields as they
    were, exactly when the index does not fit the machine integer that
    [list.insert] takes; it raises nothing else.  With an index that fits it
    makes the list one longer: an index from 0 to the length puts the new
    field at that index, a negative index down to minus the length puts it
    that far from the end, a larger index appends it, and an index at or
    below minus the length puts it first. *)
Theorem insert_field_at_places self index name value inline :
  let f := {| field_name := name; field_inline := inline; field_value := value |} in
  let old := fields_or_empty self in
  let n := Z.of_nat (length old) in
  match insert_field_at self index name value inline with
  | Returned self' =>
      let new := fields_or_empty self' in
      - maxsize - 1 <= index <= maxsize /\
      length new = S (length old) /\
      (0 <= index <= n -> new !! Z.to_nat index = Some f) /\
      (- n <= index < 0 -> new !! Z.to_nat (index + n) = Some f) /\
      (n <= index -> new = old ++ [f]) /\
      (index <= - n -> new = f :: old)
  | IndexError _ _ => False
  | OverflowError self' =>
      ~ (- maxsize - 1 <= index <= maxsize) /\ fields self' = Some old
  end.
Proof.
  intros f old n. unfold insert_field_at. fold old. fold f.
  destruct (fits_ssize_t index) eqn:Hfits.
  2: { split; [by apply fits_ssize_t_false | reflexivity]. }
  rewrite fields_or_empty_set_fields.
  split; [by apply fits_ssize_t_spec |].
  split; [apply list_insert_at_length |].
  unfold list_insert_at, insert_position. subst n. repeat split.
  - intros H. destruct (Z.ltb_spec index 0); [lia |].
    rewrite Z.min_l by lia.
    rewrite lookup_app_r by (rewrite length_take; lia).
    rewrite length_take, Nat.min_l by lia. by rewrite Nat.sub_diag.
  - intros H. destruct (Z.ltb_spec index 0); [| lia].
    rewrite Z.max_r by lia.
    rewrite lookup_app_r by (rewrite length_take; lia).
    rewrite length_take, Nat.min_l by lia. by rewrite Nat.sub_diag.
  - intros H. destruct (Z.ltb_spec index 0); [lia |].
    rewrite Z.min_r, Nat2Z.id by lia. by rewrite firstn_all, drop_all.
  - intros H. destruct (Z.ltb_spec index 0).
    + rewrite Z.max_l by lia. reflexivity.
    + assert (length old = 0%nat) as Hlen by lia.
      destruct old; [| discriminate]. by rewrite Z.min_r by (cbn; lia).
Qed.

(** X19.  On a field list that the machine can hold (every list is at most
    [sys.maxsize] long), inserting a field at an index from 0 to the length
    returns, and removing the field at the same index then gives back the
    fields there were. *)
Theorem insert_then_remove self index name value inline :
  0 <= index <= Z.of_nat (length (fields_or_empty self)) ->
  Z.of_nat (length (fields_or_empty self)) <= maxsize ->
  exists self',
    insert_field_at self index name value inline = Returned self' /\
    remove_field self' index = Returned (set_fields self (fields_or_empty self)).
Proof.
  intros H Hheld.
  assert (Hfits : fits_ssize_t index = true) by (eapply fits_within; [exact Hheld | lia]).
  unfold insert_field_at. rewrite Hfits. eexists. split; [reflexivity |].
  unfold remove_field. rewrite Hfits.
  rewrite fields_or_empty_set_fields, list_insert_at_length.
  rewrite position_nonneg by lia. rewrite set_fields_twice. do 2 f_equal.
  unfold list_insert_at, insert_position.
  destruct (Z.ltb_spec index 0); [lia |].
  rewrite Z.min_l by lia.
  set (k := Z.to_nat index).
  assert (Hk : length (take k (fields_or_empty self)) = k)
    by (rewrite length_take; lia).
  rewrite <- Hk at 1. rewrite delete_middle. apply take_drop.
Qed.

Definition bare : Embed :=
  {| title := Some "t"; type := None; description := None; url := None;
     timestamp := None; color := None; footer := None; image := None;
     thumbnail := None; video := None; provider := None; author := None;
     fields := None |}.

Definition two_fields : Embed := add_field (add_field bare "a" "1" None) "b" "2" None.

Lemma insert_then_remove_witness :
  exists self',
    insert_field_at two_fields 1 "x" "9" (Some true) = Returned self' /\
    remove_field self' 1 = Returned (set_fields two_fields (fields_or_empty two_fields)).
Proof.
  apply (insert_then_remove two_fields 1 "x" "9" (Some true)).
  - cbn. lia.
  - cbn. discriminate.
Defined.

(** X20.  On a field list that the machine can hold, with a negative index
    that is in range, inserting a field returns, and removing the field at
    the same index then does not undo the insertion: it removes the field
    that was at that index before, so the outcome is that of [set_field_at]
    with that index. *)
Theorem insert_then_remove_negative self index name value inline :
  - Z.of_nat (length (fields_or_empty self)) <= index < 0 ->
  Z.of_nat (length (fields_or_empty self)) <= maxsize ->
  exists self',
    insert_field_at self index name value inline = Returned self' /\
    remove_field self' index = set_field_at self index name value inline.
Proof.
  intros H Hheld.
  assert (Hfits : fits_ssize_t index = true) by (eapply fits_within; [exact Hheld | lia]).
  unfold insert_field_at. rewrite Hfits. eexists. split; [reflexivity |].
  unfold remove_field, set_field_at. rewrite Hfits.
  rewrite fields_or_empty_set_fields, list_insert_at_length.
  rewrite !position_negative by lia. rewrite set_fields_twice. do 2 f_equal.
  unfold list_insert_at, insert_position.
  destruct (Z.ltb_spec index 0); [| lia].
  rewrite Z.max_r by lia.
  set (l := fields_or_empty self) in *.
  set (k := Z.to_nat (index + Z.of_nat (length l))).
  replace (Z.to_nat (index + Z.of_nat (S (length l)))) with (S k) by lia.
  assert (Hk : (k < length l)%nat) by lia.
  assert (Hlen : length (take k l) = k) by (rewrite length_take; lia).
  rewrite insert_take_drop by exact Hk.
  destruct (drop k l) as [| y ys] eqn:Hd.
  { apply (f_equal length) in Hd. rewrite length_drop in Hd. cbn in Hd. lia. }
  assert (Hys : drop (S k) l = ys).
  { replace (S k) with (k + 1)%nat by lia. by rewrite <- drop_drop, Hd. }
  rewrite Hys.
  set (x := {| field_name := name; field_inline := inline; field_value := value |}).
  replace (S k) with (length (take k l ++ [x])) by (rewrite length_app, Hlen; cbn; lia).
  rewrite (cons_middle x (take k l) (y :: ys)), app_assoc.
  rewrite delete_middle. by rewrite <- app_assoc.
Qed.

Lemma insert_then_remove_negative_witness :
  exists self',
    insert_field_at two_fields (-1) "x" "9" None = Returned self' /\
    remove_field self' (-1) = set_field_at two_fields (-1) "x" "9" None.
Proof.
  apply (insert_then_remove_negative two_fields (-1) "x" "9" None).
  - cbn. lia.
  - cbn. discriminate.
Defined.

(** An index past the list appends; the first integer that does not fit
    raises. *)
Lemma insert_field_at_places_witness :
  match insert_field_at two_fields 7 "x" "9" None with
  | Returned self' =>
      fields_or_empty self'
      = fields_or_empty two_fields
        ++ [{| field_name := "x"; field_inline := None; field_value := "9" |}]
  | _ => False
  end /\
  match insert_field_at two_fields (2 ^ 63) "x" "9" None with
  | OverflowError self' => fields self' = fields two_fields
  | _ => False
  end.
Proof.
  split.
  - pose proof (insert_field_at_places two_fields 7 "x" "9" None) as H.
    change (insert_field_at two_fields 7 "x" "9" None)
      with (Returned
              (set_fields two_fields
                 (list_insert_at (fields_or_empty two_fields) 7
                    {| field_name := "x"; field_inline := None; field_value := "9" |})))
      in H |- *.
    cbv zeta in H. destruct H as (_ & _ & _ & _ & Hlast & _).
    apply Hlast. cbn. lia.
  - pose proof (insert_field_at_places two_fields (2 ^ 63) "x" "9" None) as H.
    change (insert_field_at two_fields (2 ^ 63) "x" "9" None)
      with (OverflowError (set_fields two_fields (fields_or_empty two_fields)))
      in H |- *.
    cbv zeta in H. destruct H as [_ H]. exact H.
Defined.

(** The position that a valid index denotes, written with [mod]. *)
Lemma position_mod n index k :
  position n index = Some k -> k = Z.to_nat (index mod Z.of_nat n).
Proof.
  unfold position.
  destruct (Z.leb_spec 0 index), (Z.ltb_spec index (Z.of_nat n)),
    (Z.ltb_spec index 0), (Z.leb_spec 0 (index + Z.of_nat n)); cbn;
    intros [= <-]; try lia.
  - by rewrite Z.mod_small by lia.
  - rewrite <- (Z.mod_small (index + Z.of_nat n) (Z.of_nat n)) at 1 by lia.
    rewrite <- (Z_mod_plus_full index 1 (Z.of_nat n)). do 2 f_equal. lia.
Qed.

(** X21.  [set_field_at] returns exactly when the index lies from minus the
    length to the length less one.  It then replaces the field at the index
    counted modulo the length and leaves the length and every other field as
    they were.  Otherwise it raises [IndexError] "No fields at this index",
    and an embed whose fields were [None] is left with the empty list. *)
Theorem set_field_at_effect self index name value inline :
  let f := {| field_name := name; field_inline := inline; field_value := value |} in
  let old := fields_or_empty self in
  let n := Z.of_nat (length old) in
  match set_field_at self index name value inline with
  | Returned self' =>
      - n <= index < n /\
      length (fields_or_empty self') = length old /\
      fields_or_empty self' !! Z.to_nat (index mod n) = Some f /\
      forall j : nat, j <> Z.to_nat (index mod n) -> fields_or_empty self' !! j = old !! j
  | IndexError self' message =>
      ~ (- n <= index < n) /\
      message = "No fields at this index" /\
      fields self' = Some old
  | OverflowError _ => False
  end.
Proof.
  intros f old n. unfold set_field_at. fold old. fold f.
  pose proof (position_in_range (length old) index) as Hrange. fold n in Hrange.
  destruct (position (length old) index) as [k|] eqn:Hk.
  - pose proof (position_lt _ _ _ Hk) as Hlt.
    apply position_mod in Hk. fold n in Hk. rewrite <- Hk.
    rewrite fields_or_empty_set_fields. repeat split.
    + apply Hrange. by eexists.
    + apply Hrange. by eexists.
    + apply length_insert.
    + by apply list_lookup_insert_eq.
    + intros j Hj. by apply list_lookup_insert_ne.
  - repeat split. intros H. apply Hrange in H as [k' Hk']. discriminate.
Qed.

Lemma set_field_at_effect_witness :
  match set_field_at bare 0 "x" "9" None with
  | Returned _ => False
  | IndexError self' message =>
      message = "No fields at this index" /\ fields self' = Some []
  | OverflowError _ => False
  end.
Proof.
  pose proof (set_field_at_effect bare 0 "x" "9" None) as H.
  cbn in H. destruct H as (_ & Hm & Hf). split; [exact Hm | exact Hf].
Defined.

(** X22.  [remove_field] returns exactly when the index lies from minus the
    length to the length less one and fits the machine integer that
    [list.pop] takes.  It then drops the field at the index counted modulo
    the length: the fields before it stay, those after it move down by one.
    An index out of range that fits raises [IndexError] "Field not Found at
    index"; an index that does not fit raises the [OverflowError] of
    [list.pop], which the [except] clause lets through.  Either way every
    field is kept. *)
Theorem remove_field_effect self index :
  let old := fields_or_empty self in
  let n := Z.of_nat (length old) in
  match remove_field self index with
  | Returned self' =>
      - n <= index < n /\
      - maxsize - 1 <= index <= maxsize /\
      S (length (fields_or_empty self')) = length old /\
      (forall j : nat, (j < Z.to_nat (index mod n))%nat ->
                       fields_or_empty self' !! j = old !! j) /\
      (forall j : nat, (Z.to_nat (index mod n) <= j)%nat ->
                       fields_or_empty self' !! j = old !! S j)
  | IndexError self' message =>
      ~ (- n <= index < n) /\
      - maxsize - 1 <= index <= maxsize /\
      message = "Field not Found at index" /\
      fields self' = Some old
  | OverflowError self' =>
      ~ (- maxsize - 1 <= index <= maxsize) /\
      fields self' = Some old
  end.
Proof.
  intros old n. unfold remove_field. fold old.
  destruct (fits_ssize_t index) eqn:Hfits.
  2: { split; [by apply fits_ssize_t_false | reflexivity]. }
  apply fits_ssize_t_spec in Hfits.
  pose proof (position_in_range (length old) index) as Hrange. fold n in Hrange.
  destruct (position (length old) index) as [k|] eqn:Hk.
  - pose proof (position_lt _ _ _ Hk) as Hlt.
    apply position_mod in Hk. fold n in Hk. rewrite <- Hk.
    rewrite fields_or_empty_set_fields.
    split; [apply Hrange; by eexists |]. split; [exact Hfits |]. repeat split.
    + rewrite length_delete by (by apply lookup_lt_is_Some_2). lia.
    + intros j Hj. by apply list_lookup_delete_lt.
    + intros j Hj. by apply list_lookup_delete_ge.
  - split; [| split; [exact Hfits | by split]].
    intros H. apply Hrange in H as [k' Hk']. discriminate.
Qed.

(** A negative index that is in range, and the first integer that does not
    fit. *)
Lemma remove_field_effect_witness :
  match remove_field two_fields (-2) with
  | Returned self' =>
      fields_or_empty self' !! 0%nat
      = Some {| field_name := "b"; field_inline := None; field_value := "2" |}
  | _ => False
  end /\
  match remove_field two_fields (2 ^ 63) with
  | OverflowError self' => fields self' = fields two_fields
  | _ => False
  end.
Proof.
  split.
  - pose proof (remove_field_effect two_fields (-2)) as H.
    change (remove_field two_fields (-2))
      with (Returned (set_fields two_fields (delete 0%nat (fields_or_empty two_fields))))
      in H |- *.
    cbv zeta in H. destruct H as (_ & _ & _ & _ & Hafter).
    exact (Hafter 0%nat (Nat.le_refl 0)).
  - pose proof (remove_field_effect two_fields (2 ^ 63)) as H.
    change (remove_field two_fields (2 ^ 63))
      with (OverflowError (set_fields two_fields (fields_or_empty two_fields)))
      in H |- *.
    cbv zeta in H. destruct H as [_ H]. exact H.
Defined.

(** X23.  Removing the field at index -1 right after [add_field] gives back
    the fields there were, for any embed: the added field is always the
    last one. *)
Theorem add_then_remove_last self name value inline :
  remove_field (add_field self name value inline) (-1)
  = Returned (set_fields self (fields_or_empty self)).
Proof.
  unfold remove_field, add_field.
  change (fits_ssize_t (-1)) with true. cbv iota.
  rewrite fields_or_empty_set_fields, set_fields_twice.
  set (l := fields_or_empty self).
  rewrite position_negative by (rewrite length_app; cbn; lia).
  do 2 f_equal.
  replace (Z.to_nat (-1 + Z.of_nat (length (l ++ [_])))) with (length l)
    by (rewrite length_app; cbn; lia).
  rewrite delete_middle. apply app_nil_r.
Qed.

End EmbedFacts.

(** * Properties of the reaction methods *)
Module ReactionFacts.
Import Py Interactions Reactions.

Implicit Types (world : list call -> call -> result (list UserDict))
  (request : option Z -> call) (full : list (list UserDict))
  (final : result (list UserDict)).

(** The requests that a run over the full pages [full] makes, the first one
    with [after]: one per full page and one more for the page that ends the
    run. *)
Fixpoint requests request (after : option Z) full : list call :=
  match full with
  | [] => [request after]
  | p :: ps => request after :: requests request (user_id <$> last p) ps
  end.

(** The world answers these requests, in order, with the pages of [full]
    and then with [final]. *)
Fixpoint answered world (past : list call) request (after : option Z) full final : Prop :=
  match full with
  | [] => world past (request after) = final
  | p :: ps =>
      world past (request after) = Ok p /\
      answered world (past ++ [request after]) request (user_id <$> last p) ps final
  end.

Definition ends_run final : Prop :=
  forall q, final = Ok q -> length q <> 100%nat.

Lemma more_pages_run full final request : forall fuel world past res _all_users,
  length res = 100%nat ->
  Forall (fun p => length p = 100%nat) full ->
  ends_run final ->
  (length full < fuel)%nat ->
  answered world past request (user_id <$> last res) full final ->
  more_pages fuel world request past res _all_users
  = Some (match final with
          | Ok q => Ok (_all_users ++ res ++ concat full ++ q)
          | Raise e => Raise e
          end,
          past ++ requests request (user_id <$> last res) full).
Proof.
  induction full as [| p ps IH]; intros fuel world past res acc Hres Hfull Hfinal Hfuel Hans;
    (destruct fuel as [| fuel]; [cbn in Hfuel; lia |]); cbn [more_pages];
    rewrite Hres; cbn [Nat.eqb]; change (Nat.eqb 100 100) with true; cbn [answered] in Hans.
  - rewrite Hans. destruct final as [q | e]; [| reflexivity].
    destruct fuel; cbn [more_pages];
      (destruct (Nat.eqb_spec (length q) 100) as [Hq | _];
       [by apply Hfinal in Hq |]); cbn; by rewrite <- !app_assoc.
  - destruct Hans as [Hp Hans]. rewrite Hp.
    apply Forall_cons in Hfull as [Hlen Hfull].
    rewrite (IH fuel world _ p (acc ++ res) Hlen Hfull Hfinal) by (cbn in Hfuel; lia || exact Hans).
    destruct final; cbn; by rewrite <- !app_assoc.
Qed.

(** X24.  Pagination.  When the transport answers full pages of a hundred
    users and then a shorter page, the method returns all users in the order
    received; when it answers an exception instead, that exception is
    raised and the users received before are lost.  The requests are one per
    page, the first without [after] and each later one with the id of the
    last user of the page before. *)
Theorem get_users_from_reaction_pages fuel world self emoji _emoji full final :
  is_Some (self_client self) ->
  format_emoji emoji = Ok _emoji ->
  let request :=
    get_reactions_of_emoji (self_channel_id self) (self_id self) _emoji 100 in
  Forall (fun p => length p = 100%nat) full ->
  ends_run final ->
  (length full <= fuel)%nat ->
  answered world [] request None full final ->
  get_users_from_reaction fuel world self emoji
  = Some (match final with
          | Ok q => Ok (concat full ++ q)
          | Raise e => Raise e
          end,
          requests request None full).
Proof.
  intros [client Hclient] Hemoji request Hfull Hfinal Hfuel Hans.
  unfold get_users_from_reaction. rewrite Hclient, Hemoji. fold request.
  destruct full as [| p ps]; cbn [answered] in Hans.
  - rewrite Hans. destruct final as [q | e]; [| reflexivity].
    destruct fuel; cbn [more_pages];
      (destruct (Nat.eqb_spec (length q) 100) as [Hq | _];
       [by apply Hfinal in Hq | reflexivity]).
  - destruct Hans as [Hp Hans]. rewrite Hp.
    apply Forall_cons in Hfull as [Hlen Hfull].
    rewrite (more_pages_run ps final request fuel world [request None] p []
               Hlen Hfull Hfinal) by (cbn in Hfuel; lia || exact Hans).
    destruct final; cbn; by rewrite <- ?app_assoc.
Qed.

Definition fan (n : Z) : UserDict := {| user_id := n; username := "fan" |}.

(** Two answers: a full page whose users all have id 5, then two users. *)
Definition two_answers : list call -> call -> result (list UserDict) :=
  fun past _ =>
    match past with
    | [] => Ok (replicate 100 (fan 5))
    | _ => Ok [fan 6; fan 7]
    end.

Definition reacted : Message := EditSpec.sent (Some 1%nat) 0.

Lemma get_users_from_reaction_pages_witness :
  get_users_from_reaction 1 two_answers reacted (EmojiStr "👍")
  = Some (Ok (replicate 100 (fan 5) ++ [fan 6; fan 7]),
          [get_reactions_of_emoji 10 20 (Some "👍") 100 None;
           get_reactions_of_emoji 10 20 (Some "👍") 100 (Some 5)]).
Proof.
  pose proof (get_users_from_reaction_pages 1 two_answers reacted (EmojiStr "👍")
                (Some "👍") [replicate 100 (fan 5)] (Ok [fan 6; fan 7])) as H.
  cbn zeta in H. rewrite H.
  - cbn [concat app requests last fmap option_fmap option_map]. by rewrite app_nil_r.
  - by exists 1%nat.
  - reflexivity.
  - by constructor.
  - intros q [= <-]. cbn. lia.
  - cbn. lia.
  - split; reflexivity.
Defined.

Lemma more_pages_never_ends world request :
  (forall past c, exists page, world past c = Ok page /\ length page = 100%nat) ->
  forall fuel past res _all_users,
    length res = 100%nat ->
    more_pages fuel world request past res _all_users = None.
Proof.
  intros Hworld. induction fuel as [| fuel IH]; intros past res acc Hres;
    cbn [more_pages]; rewrite Hres; change (Nat.eqb 100 100) with true; cbn iota.
  - reflexivity.
  - destruct (Hworld past (request (user_id <$> last res))) as (page & -> & Hpage).
    by apply IH.
Qed.

(** X25.  The method stops on a short page only.  Against a transport that
    answers a hundred users to every request, no number of turns is enough:
    the loop goes on asking. *)
Theorem get_users_from_reaction_needs_short_page world self emoji _emoji :
  is_Some (self_client self) ->
  format_emoji emoji = Ok _emoji ->
  (forall past c, exists page, world past c = Ok page /\ length page = 100%nat) ->
  forall fuel, get_users_from_reaction fuel world self emoji = None.
Proof.
  intros [client Hclient] Hemoji Hworld fuel.
  unfold get_users_from_reaction. rewrite Hclient, Hemoji.
  destruct (Hworld [] (get_reactions_of_emoji (self_channel_id self) (self_id self)
                         _emoji 100 None)) as (page & -> & Hpage).
  by apply more_pages_never_ends.
Qed.

Definition always_full : list call -> call -> result (list UserDict) :=
  fun _ _ => Ok (replicate 100 (fan 5)).

Lemma get_users_from_reaction_needs_short_page_witness :
  get_users_from_reaction 1000 always_full reacted (EmojiStr "👍") = None.
Proof.
  apply (get_users_from_reaction_needs_short_page always_full reacted (EmojiStr "👍")
           (Some "👍")).
  - by exists 1%nat.
  - reflexivity.
  - intros past c. exists (replicate 100 (fan 5)). split; reflexivity.
Defined.

Fixpoint count_colons (s : string) : nat :=
  match s with
  | EmptyString => 0
  | String c s' => (if Ascii.eqb c ":" then 1 else 0) + count_colons s'
  end.

Lemma count_colons_app s t : count_colons (s +:+ t) = (count_colons s + count_colons t)%nat.
Proof.
  induction s as [| c s IH]; [reflexivity |].
  change (String c s +:+ t) with (String c (s +:+ t)). cbn. rewrite IH. lia.
Qed.

Lemma remove_colons_none s : count_colons (remove_colons s) = 0%nat.
Proof.
  induction s as [| c s IH]; cbn; [reflexivity |].
  destruct (Ascii.eqb c ":") eqn:Hc; cbn; [exact IH | by rewrite Hc].
Qed.

(** X26.  For an emoji object with an id, the text sent to the transport is
    the name without its colons between two colons, followed by the id: a
    colon in the name never adds a separator, so the text has two colons
    besides those of the id. *)
Theorem format_emoji_two_colons (n i : string) :
  exists s,
    format_emoji (EmojiObject (Some n) (Some i)) = Ok (Some s) /\
    s = ":" +:+ remove_colons n +:+ ":" +:+ i /\
    count_colons s = (2 + count_colons i)%nat.
Proof.
  exists (":" +:+ remove_colons n +:+ ":" +:+ i).
  split; [reflexivity |]. split; [reflexivity |].
  rewrite !count_colons_app, remove_colons_none. reflexivity.
Qed.

(** X27.  On a message without a client, the methods do not agree on what
    is raised for an emoji object that has an id but no name:
    [create_reaction] checks the client first and raises the library error
    13, [remove_reaction_from] formats the emoji first and raises
    [AttributeError].  Neither sends a request. *)
Theorem reaction_guard_order (answer : list call -> call -> result ()) self
    (i : string) user :
  self_client self = None ->
  create_reaction answer self (EmojiObject None (Some i)) = (Raise no_client, []) /\
  remove_reaction_from answer self (EmojiObject None (Some i)) user
  = (Raise AttributeError, []).
Proof.
  intros Hclient. unfold create_reaction, remove_reaction_from. rewrite Hclient.
  split; reflexivity.
Qed.

Lemma reaction_guard_order_witness :
  create_reaction (fun _ _ => Ok ()) (EditSpec.sent None 0) (EmojiObject None (Some "42"))
  = (Raise (LibraryException 13 None), []) /\
  remove_reaction_from (fun _ _ => Ok ()) (EditSpec.sent None 0)
    (EmojiObject None (Some "42")) (UserId 3)
  = (Raise AttributeError, []).
Proof.
  apply (reaction_guard_order (fun _ _ => Ok ()) (EditSpec.sent None 0) "42" (UserId 3)).
  reflexivity.
Defined.

End ReactionFacts.

(** * Properties of [Message.url] and [Message.get_from_url] *)
Module UrlFacts.
Import Py Interactions Urls.

Lemma append_assoc (a b c : string) : (a +:+ b) +:+ c = a +:+ b +:+ c.
Proof.
  induction a as [| x a IH]; [reflexivity |].
  change ((String x a +:+ b) +:+ c) with (String x ((a +:+ b) +:+ c)).
  change (String x a +:+ b +:+ c) with (String x (a +:+ b +:+ c)).
  by rewrite IH.
Qed.

Lemma append_empty_r (a : string) : a +:+ "" = a.
Proof.
  induction a as [| x a IH]; [reflexivity |].
  change (String x a +:+ "") with (String x (a +:+ "")). by rewrite IH.
Qed.

(** The character [c] does not occur in [s]. *)
Fixpoint lacks (c : ascii) (s : string) : bool :=
  match s with
  | EmptyString => true
  | String x s' => negb (Ascii.eqb c x) && lacks c s'
  end.

Lemma lacks_app c a b : lacks c (a +:+ b) = lacks c a && lacks c b.
Proof.
  induction a as [| x a IH]; [reflexivity |].
  change (String x a +:+ b) with (String x (a +:+ b)). cbn. rewrite IH.
  by rewrite andb_assoc.
Qed.

(** [split] always gives at least one piece. *)
Lemma split_from_nonempty sep skip piece s : split_from sep skip piece s <> [].
Proof.
  revert skip piece. induction s as [| c s IH]; intros skip piece; [done |].
  cbn [split_from]. destruct skip; [| apply IH].
  destruct (starts_with sep (String c s)); [done | apply IH].
Qed.

(** When the test [sub in s] holds, [s.split(sub)] has a second piece. *)
Lemma contains_split c0 sep' s piece :
  contains (String c0 sep') s = true ->
  exists a b rest, split_from (String c0 sep') 0 piece s = a :: b :: rest.
Proof.
  set (sep := String c0 sep').
  revert piece. induction s as [| c s IH]; intros piece; cbn [contains split_from].
  - discriminate.
  - destruct (starts_with sep (String c s)); cbn [orb].
    + intros _.
      destruct (split_from sep (String.length sep - 1) "" s) as [| b rest] eqn:Hs.
      * by apply split_from_nonempty in Hs.
      * by exists piece, b, rest.
    + intros H. by apply IH.
Qed.

(** A text without the first character of the separator is one piece. *)
Lemma split_from_lacks c0 sep' piece t :
  lacks c0 t = true ->
  split_from (String c0 sep') 0 piece t = [piece +:+ t].
Proof.
  revert piece. induction t as [| x t IH]; intros piece H; cbn [split_from].
  - by rewrite append_empty_r.
  - cbn in H. apply andb_prop in H as [Hx Ht].
    cbn [starts_with]. apply negb_true_iff in Hx. rewrite Hx. cbn [andb].
    rewrite IH by exact Ht. by rewrite append_assoc.
Qed.

(** Up to the first occurrence of a separator of one character. *)
Lemma split_from_char c0 piece a s :
  lacks c0 a = true ->
  split_from (String c0 "") 0 piece (a +:+ String c0 s)
  = (piece +:+ a) :: split_from (String c0 "") 0 "" s.
Proof.
  revert piece. induction a as [| x a IH]; intros piece H.
  - change ("" +:+ String c0 s) with (String c0 s). cbn [split_from starts_with].
    rewrite Ascii.eqb_refl. cbn. by rewrite append_empty_r.
  - change (String x a +:+ String c0 s) with (String x (a +:+ String c0 s)).
    cbn in H. apply andb_prop in H as [Hx Ha]. apply negb_true_iff in Hx.
    cbn [split_from starts_with]. rewrite Hx. cbn [andb].
    rewrite IH by exact Ha. by rewrite append_assoc.
Qed.

(** Decimal digits only. *)
Definition is_digit (x : ascii) : bool :=
  Nat.leb 48 (nat_of_ascii x) && Nat.leb (nat_of_ascii x) 57.

Fixpoint digits (s : string) : bool :=
  match s with
  | EmptyString => true
  | String x s' => is_digit x && digits s'
  end.

Lemma digits_lacks c s :
  is_digit c = false -> digits s = true -> lacks c s = true.
Proof.
  intros Hc. induction s as [| x s IH]; [done |]. cbn [digits lacks].
  intros H. apply andb_prop in H as [Hx Hs]. rewrite IH by exact Hs.
  rewrite andb_true_r. apply negb_true_iff.
  destruct (Ascii.eqb_spec c x) as [Heq |]; [| reflexivity].
  rewrite Heq, Hx in Hc. discriminate.
Qed.

Definition guild_text (guild_id : option string) : bool :=
  match guild_id with Some g => digits g | None => true end.

Lemma guild_lacks c guild_id :
  guild_text guild_id = true ->
  is_digit c = false ->
  lacks c "@me" = true ->
  lacks c (default "@me" guild_id) = true.
Proof.
  destruct guild_id as [g |]; cbn [default from_option guild_text]; intros Hg Hc Hme;
    [by apply digits_lacks | exact Hme].
Qed.

Lemma split_url (T : string) :
  contains "channels/" ("https://discord.com/channels/" +:+ T) = true /\
  split "channels/" ("https://discord.com/channels/" +:+ T)
  = "https://discord.com/" :: split "channels/" T.
Proof. split; reflexivity. Qed.

(** X28.  Round trip.  For a message whose channel id and id are written in
    decimal digits, and whose guild id is too when there is one,
    [get_from_url] applied to the [url] of the message makes exactly one
    request, for that channel id and that message id, and returns what the
    transport answers. *)
Theorem get_from_url_of_url world guild_id channel_id id :
  guild_text guild_id = true ->
  digits channel_id = true ->
  digits id = true ->
  get_from_url world (url guild_id channel_id id)
  = (world (get_message channel_id id), [get_message channel_id id]).
Proof.
  intros Hg Hc Hm. unfold get_from_url, url. cbn zeta.
  set (g := default "@me" guild_id).
  assert (Hgc : lacks "c" g = true) by (by apply guild_lacks).
  assert (Hgs : lacks "/" g = true) by (by apply guild_lacks).
  destruct (split_url (g +:+ "/" +:+ channel_id +:+ "/" +:+ id)) as [-> ->].
  cbn [negb]. unfold split at 2.
  rewrite split_from_lacks.
  2:{ rewrite !lacks_app, Hgc. cbn.
      by rewrite !(digits_lacks "c") by (reflexivity || assumption). }
  cbn [nth]. change ("" +:+ ?x) with x. unfold split.
  change (g +:+ "/" +:+ channel_id +:+ "/" +:+ id)
    with (g +:+ String "/" (channel_id +:+ String "/" id)).
  rewrite split_from_char by exact Hgs.
  rewrite split_from_char by (by apply digits_lacks).
  rewrite split_from_lacks by (by apply digits_lacks).
  reflexivity.
Qed.

Definition found : call -> result json := fun _ => Ok (JDict []).

Lemma get_from_url_of_url_witness :
  get_from_url found (url None "10" "20")
  = (Ok (JDict []), [get_message "10" "20"]).
Proof.
  apply (get_from_url_of_url found None "10" "20"); reflexivity.
Defined.

(** X29.  A URL that names a channel and a message but no guild is not
    accepted: after "channels/" there are two pieces instead of three, the
    unpacking raises [ValueError] (not the library error for an invalid
    URL), and no request is made. *)
Theorem get_from_url_without_guild world channel_id id :
  digits channel_id = true ->
  digits id = true ->
  get_from_url world ("https://discord.com/channels/" +:+ channel_id +:+ "/" +:+ id)
  = (Raise ValueError, []).
Proof.
  intros Hc Hm. unfold get_from_url.
  destruct (split_url (channel_id +:+ "/" +:+ id)) as [-> ->].
  cbn [negb]. unfold split at 2.
  rewrite split_from_lacks.
  2:{ rewrite !lacks_app. cbn.
      by rewrite !(digits_lacks "c") by (reflexivity || assumption). }
  cbn [nth]. change ("" +:+ ?x) with x. unfold split.
  change (channel_id +:+ "/" +:+ id) with (channel_id +:+ String "/" id).
  rewrite split_from_char by (by apply digits_lacks).
  rewrite split_from_lacks by (by apply digits_lacks).
  reflexivity.
Qed.

Lemma get_from_url_without_guild_witness :
  get_from_url found "https://discord.com/channels/10/20"
  = (Raise ValueError, []).
Proof.
  apply (get_from_url_without_guild found "10" "20"); reflexivity.
Defined.

End UrlFacts.

(** * Properties of [Message.reply] *)
Module ReplyFacts.
Import Py Interactions Replies.

Lemma author_defaults_lookup (k : string) :
  author_defaults !! k
  = if bool_decide (k = "id" \/ k = "username" \/ k = "discriminator")
    then Some JNull else None.
Proof.
  unfold author_defaults.
  destruct (decide (k = "id")) as [-> | Hid]; [reflexivity |].
  destruct (decide (k = "username")) as [-> | Hname]; [reflexivity |].
  destruct (decide (k = "discriminator")) as [-> | Hdisc]; [reflexivity |].
  rewrite bool_decide_eq_false_2 by (intros [? | [? | ?]]; done).
  rewrite !lookup_insert_ne by done. by apply lookup_singleton_ne.
Qed.

(** X30.  When [reply] returns, exactly one message was created, and the
    author keywords of the new message are those the transport answered,
    completed with [None] for each of id, username and discriminator that
    the answer left out; no other key is added and none is changed. *)
Theorem reply_author_keywords ext reference_to world self a data :
  fst (reply ext reference_to world self a) = Ok data ->
  exists c res given author,
    snd (reply ext reference_to world self a) = [c] /\
    world c = Ok res /\
    data_author res = Some given /\
    data_rest data = data_rest res /\
    data_author data = Some author /\
    forall k : string,
      author !! k
      = match given !! k with
        | Some v => Some v
        | None =>
            if bool_decide (k = "id" \/ k = "username" \/ k = "discriminator")
            then Some JNull else None
        end.
Proof.
  unfold reply. destruct (self_client self); [| discriminate].
  destruct (reply_payload ext reference_to self a) as [[payload files] |]; [| discriminate].
  destruct (world _) as [res |] eqn:Hworld; [| discriminate].
  destruct (data_author res) as [given |] eqn:Hgiven; [| discriminate].
  cbn. intros [= <-]. eexists _, res, given, _.
  repeat split; try done.
  intros k. rewrite lookup_union, author_defaults_lookup.
  destruct (given !! k); [| by destruct (bool_decide _)].
  by destruct (bool_decide _).
Qed.

Definition reference (n : Z) : json := JDict [("message_id", JInt n)].

Definition nothing : ReplyArgs :=
  {| reply_content := Given (Some "pong"); reply_tts := MISSING; reply_embeds := MISSING;
     reply_files := MISSING; reply_attachments := MISSING;
     reply_allowed_mentions := MISSING; reply_stickers := MISSING;
     reply_components := MISSING |}.

(** The transport answers an author that has an id and a flag, no more. *)
Definition terse : call -> result MessageData :=
  fun _ => Ok {| data_author := Some {[ "id" := JStr "7"; "bot" := JBool true ]};
                 data_rest := {[ "content" := JStr "pong" ]} |}.

Lemma reply_author_keywords_witness :
  exists author,
    fst (reply EditSpec.released reference terse (EditSpec.sent (Some 1%nat) 0) nothing)
    = Ok {| data_author := Some author; data_rest := {[ "content" := JStr "pong" ]} |} /\
    author !! "username" = Some JNull /\
    author !! "id" = Some (JStr "7") /\
    author !! "bot" = Some (JBool true).
Proof.
  destruct (reply_author_keywords EditSpec.released reference terse
              (EditSpec.sent (Some 1%nat) 0) nothing
              {| data_author := Some ({[ "id" := JStr "7"; "bot" := JBool true ]}
                                      ∪ author_defaults);
                 data_rest := {[ "content" := JStr "pong" ]} |} eq_refl)
    as (c & res & given & author & _ & Hres & Hgiven & _ & [= <-] & Hkeys).
  injection Hres as <-. injection Hgiven as <-.
  eexists. split; [reflexivity |].
  rewrite !Hkeys. repeat split; vm_compute; reflexivity.
Defined.

End ReplyFacts.
